(** * Order-book reconciliation engine ([binance.py])

    A shallow embedding of the price-level container [Levels], the value
    type [PriceLevel], the records [Snapshot] / [PartialUpdate] and the
    update-validation state machine [BinanceOrderBook], followed by the
    properties of the design document that concern them.

    Conventions of the embedding.
    - Python [int] is [Z]; Python [float] is the IEEE-754 specification type
      [spec_float] of the standard library, compared with [SFeqb] ([==]) and
      [SFltb] ([<]).
    - A method that mutates [self] takes the old object and returns the new
      one; a method that may raise returns an [outcome].
    - [sortedcontainers.SortedDict] is a third-party container.  It is
      modelled by the list of its items in key order, with the operations
      the program calls ([__contains__], [__setitem__], [pop], [__getitem__],
      [peekitem], [islice]) following the library's documented behaviour.
      The container requires totally ordered keys; a NaN key is outside that
      contract (and CPython's treatment of it depends on object identity), so
      the ordering lemmas assume that prices are not NaN.
    - What the program does when a price is NaN is shown on a second
      embedding, module [Exact], which follows the library's binary search
      and its [ValueError]; on keys in order the two embeddings agree
      (lemmas [exact_merge], [exact_update], [exact_init], [exact_best]). *)

From Stdlib Require Import ZArith List Bool Lia String Sorted.
From Stdlib Require Import Floats.SpecFloat.
Import ListNotations.

Local Open Scope Z_scope.

(** ** Python values, exceptions and results *)

Definition float := spec_float.

(** [x == y] and [x < y] on floats. *)
Definition feq (x y : float) : bool := SFeqb x y.
Definition flt (x y : float) : bool := SFltb x y.

(** [math.isnan]. *)
Definition isnan (x : float) : bool :=
  match x with S754_nan => true | _ => false end.

(** The literal [0.0]. *)
Definition zero : float := S754_zero false.

(** Conversion of an [int] to binary64, round-to-nearest-even; an [int] that
    is too large has no float ([OverflowError] in Python). *)
Definition float_of_int (z : Z) : option float :=
  match binary_normalize 53 1024 z 0 false with
  | S754_infinity _ => None
  | f => Some f
  end.

(** The exceptions the program can raise.  [RuntimeWarning] carries the two
    ids its message is formatted from: the [first_update_id] received and the
    id that was expected. *)
Inductive exn : Type :=
| TypeError
| KeyError
| IndexError
| ValueError
| OverflowError
| RuntimeWarning (received expected : Z).

Inductive outcome (A : Type) : Type :=
| Return (a : A)
| Raise (e : exn).

Arguments Return {A} a.
Arguments Raise {A} e.

Definition bind {A B : Type} (m : outcome A) (k : A -> outcome B) : outcome B :=
  match m with
  | Return a => k a
  | Raise e => Raise e
  end.

Notation "x <- m ;; k" := (bind m (fun x => k))
  (at level 61, m at next level, right associativity).

(** Evaluation of a comprehension [[f x for x in l]], left to right, stopping
    at the first exception. *)
Fixpoint for_each {A B : Type} (f : A -> outcome B) (l : list A) : outcome (list B) :=
  match l with
  | [] => Return []
  | x :: l' => y <- f x ;; ys <- for_each f l' ;; Return (y :: ys)
  end.

(** [l[index]] on a sequence: a negative index counts from the end. *)
Definition list_getitem {A : Type} (l : list A) (index : Z) : outcome A :=
  let n := Z.of_nat (List.length l) in
  let idx := if index <? 0 then index + n else index in
  if (idx <? 0) || (n <=? idx) then Raise IndexError
  else match nth_error l (Z.to_nat idx) with
       | Some a => Return a
       | None => Raise IndexError
       end.

(** One bound of [slice(start, stop).indices(len)] with step 1. *)
Definition slice_index (len : Z) (i : option Z) (default : Z) : Z :=
  match i with
  | None => default
  | Some i => if i <? 0 then Z.max (i + len) 0 else Z.min i len
  end.

(** The dynamically typed values handed to the [from_object] constructors. *)
#[warnings="-register-all"]
Inductive pyobj : Type :=
| PyNone
| PyBool (b : bool)
| PyInt (z : Z)
| PyFloat (f : float)
| PyStr (s : string)
| PyTuple (l : list pyobj)
| PyList (l : list pyobj)
| PyDict (d : list (string * pyobj)).

(** [obj[key]] on a [dict] with string keys. *)
Fixpoint dict_getitem (d : list (string * pyobj)) (key : string) : outcome pyobj :=
  match d with
  | [] => Raise KeyError
  | (k, v) :: d' => if String.eqb k key then Return v else dict_getitem d' key
  end.

(** The builtin [float(x)].  Parsing of a numeric string is the builtin's own
    business and is taken as a parameter ([None] is [ValueError]). *)
Definition py_float (float_of_str : string -> option float) (x : pyobj) : outcome float :=
  match x with
  | PyFloat f => Return f
  | PyInt z =>
      match float_of_int z with Some f => Return f | None => Raise OverflowError end
  | PyBool b =>
      match float_of_int (if b then 1 else 0) with
      | Some f => Return f
      | None => Raise OverflowError
      end
  | PyStr s =>
      match float_of_str s with Some f => Return f | None => Raise ValueError end
  | PyNone | PyTuple _ | PyList _ | PyDict _ => Raise TypeError
  end.

(** ** [sortedcontainers.SortedDict] with float keys

    The operations on a key list that is in order - strictly ascending, no
    key NaN - which is what the library maintains for ordered keys. *)

Module SortedDict.

(** The items in ascending key order. *)
Definition t (V : Type) : Type := list (float * V).

Definition empty {V : Type} : t V := [].

Definition keys {V : Type} (d : t V) : list float := map fst d.

Definition len {V : Type} (d : t V) : Z := Z.of_nat (List.length d).

(** The item stored for [key], if any, with the key object the dict holds. *)
Fixpoint find_item {V : Type} (key : float) (d : t V) : option (float * V) :=
  match d with
  | [] => None
  | (k, v) :: d' => if feq k key then Some (k, v) else find_item key d'
  end.

(** [key in d]. *)
Definition contains {V : Type} (key : float) (d : t V) : bool :=
  match find_item key d with Some _ => true | None => false end.

(** [d[key]]. *)
Definition getitem {V : Type} (d : t V) (key : float) : outcome V :=
  match find_item key d with
  | Some (_, v) => Return v
  | None => Raise KeyError
  end.

(** [dict.__setitem__] for a key that is present: the value is replaced and
    the key object already stored is kept. *)
Fixpoint replace {V : Type} (key : float) (value : V) (d : t V) : t V :=
  match d with
  | [] => []
  | (k, v) :: d' =>
      if feq k key then (k, value) :: d' else (k, v) :: replace key value d'
  end.

(** [SortedList.add] for a key that is absent: the key goes before the
    first stored key that is greater. *)
Fixpoint insort {V : Type} (key : float) (value : V) (d : t V) : t V :=
  match d with
  | [] => [(key, value)]
  | (k, v) :: d' =>
      if flt key k then (key, value) :: (k, v) :: d'
      else (k, v) :: insort key value d'
  end.

(** [d[key] = value]:
    [if key not in self: self._list_add(key)] then [dict.__setitem__]. *)
Definition setitem {V : Type} (key : float) (value : V) (d : t V) : t V :=
  if contains key d then replace key value d else insort key value d.

(** Removal of the item stored for [key]. *)
Fixpoint remove {V : Type} (key : float) (d : t V) : t V :=
  match d with
  | [] => []
  | (k, v) :: d' => if feq k key then d' else (k, v) :: remove key d'
  end.

(** [d.pop(key, None)]: the popped value (or [None]) and the new dict. *)
Definition pop {V : Type} (key : float) (d : t V) : option V * t V :=
  match find_item key d with
  | Some (_, v) => (Some v, remove key d)
  | None => (None, d)
  end.

(** [d.peekitem(index)]: [key = self._list[index]; return key, self[key]]. *)
Definition peekitem {V : Type} (index : Z) (d : t V) : outcome (float * V) :=
  key <- list_getitem (keys d) index ;;
  v <- getitem d key ;;
  Return (key, v).

(** [d.islice(start, stop, reverse)]: the keys at positions
    [start .. stop - 1] of the sorted key list, reversed on demand. *)
Definition islice {V : Type} (start stop : option Z) (reverse : bool) (d : t V)
  : list float :=
  let n := len d in
  if n =? 0 then []
  else
    let s := slice_index n start 0 in
    let e := slice_index n stop n in
    if s >=? e then []
    else
      let ks := firstn (Z.to_nat (e - s)) (skipn (Z.to_nat s) (keys d)) in
      if reverse then rev ks else ks.

End SortedDict.

(** ** [PriceLevel] *)

Module PriceLevel.

Record t : Type := Make { price : float; quantity : float }.

Section FromObject.
Variable float_of_str : string -> option float.

Definition from_object (obj : pyobj) : outcome t :=
  match obj with
  | PyDict d =>
      p <- dict_getitem d "price"%string ;;
      p <- py_float float_of_str p ;;
      q <- dict_getitem d "qty"%string ;;
      q <- py_float float_of_str q ;;
      Return (Make p q)
  | PyList l =>
      p <- list_getitem l 0 ;;
      p <- py_float float_of_str p ;;
      q <- list_getitem l 1 ;;
      q <- py_float float_of_str q ;;
      Return (Make p q)
  | _ => Raise TypeError
  end.
End FromObject.

End PriceLevel.

(** ** [Levels] *)

Module Levels.

Record t : Type := Make { levels : SortedDict.t PriceLevel.t }.

(** [Levels()] *)
Definition init : t := Make SortedDict.empty.

(** Body of the loop of [merge]. *)
Definition merge_level (self : t) (level : PriceLevel.t) : t :=
  if feq (PriceLevel.quantity level) zero
  then Make (snd (SortedDict.pop (PriceLevel.price level) (levels self)))
  else Make (SortedDict.setitem (PriceLevel.price level) level (levels self)).

Definition merge (lvls : list PriceLevel.t) (self : t) : t :=
  fold_left merge_level lvls self.

Definition max (i : Z) (self : t) : outcome PriceLevel.t :=
  kv <- SortedDict.peekitem (- i) (levels self) ;;
  Return (snd kv).

(** The generator returned by [max_slice], run to exhaustion. *)
Definition max_slice (i : Z) (reverse : bool) (self : t) : outcome (list PriceLevel.t) :=
  for_each (SortedDict.getitem (levels self))
           (SortedDict.islice (Some (- i)) None reverse (levels self)).

Definition min (i : Z) (self : t) : outcome PriceLevel.t :=
  kv <- SortedDict.peekitem (i - 1) (levels self) ;;
  Return (snd kv).

(** The generator returned by [min_slice], run to exhaustion. *)
Definition min_slice (i : Z) (reverse : bool) (self : t) : outcome (list PriceLevel.t) :=
  for_each (SortedDict.getitem (levels self))
           (SortedDict.islice None (Some i) reverse (levels self)).

Definition len (self : t) : Z := SortedDict.len (levels self).

End Levels.

(** ** [PartialUpdate] and [Snapshot] *)

Module PartialUpdate.
Record t : Type := Make {
  bids : list PriceLevel.t;
  asks : list PriceLevel.t;
  first_update_id : Z;
  last_update_id : Z
}.
End PartialUpdate.

Module Snapshot.
Record t : Type := Make {
  bids : list PriceLevel.t;
  asks : list PriceLevel.t;
  last_update_id : Z
}.
End Snapshot.

(** ** [BinanceOrderBook] *)

Module BinanceOrderBook.

Record t : Type := Make {
  bids : Levels.t;
  asks : Levels.t;
  last_update_id : Z
}.

(** [__init__] *)
Definition init (snapshot : Snapshot.t) : t :=
  Make (Levels.merge (Snapshot.bids snapshot) Levels.init)
       (Levels.merge (Snapshot.asks snapshot) Levels.init)
       (Snapshot.last_update_id snapshot).

(** [update]: [Return true] on update, [Return false] on skip,
    [Raise (RuntimeWarning ...)] on an invalid id; paired with the book
    after the call. *)
Definition update (upd : PartialUpdate.t) (self : t) : outcome bool * t :=
  if PartialUpdate.last_update_id upd <? last_update_id self
  then (Return false, self)
  else if PartialUpdate.first_update_id upd >? last_update_id self + 1
  then (Raise (RuntimeWarning (PartialUpdate.first_update_id upd)
                              (last_update_id self + 1)),
        self)
  else (Return true,
        Make (Levels.merge (PartialUpdate.bids upd) (bids self))
             (Levels.merge (PartialUpdate.asks upd) (asks self))
             (PartialUpdate.last_update_id upd)).

Definition best_bid (i : Z) (self : t) : outcome PriceLevel.t :=
  Levels.max i (bids self).

Definition best_bids (n : Z) (self : t) : outcome (list PriceLevel.t) :=
  Levels.max_slice n true (bids self).

Definition best_ask (i : Z) (self : t) : outcome PriceLevel.t :=
  Levels.min i (asks self).

Definition best_asks (n : Z) (self : t) : outcome (list PriceLevel.t) :=
  Levels.min_slice n false (asks self).

Definition len (self : t) : Z :=
  Levels.len (bids self) + Levels.len (asks self).

(** A driver feeding a stream of updates to one book, whatever each call
    reports. *)
Definition feed (upds : list PartialUpdate.t) (self : t) : t :=
  fold_left (fun book upd => snd (update upd book)) upds self.

End BinanceOrderBook.

(** ** Specification vocabulary *)

(** A position of each non-NaN float on a lexicographically ordered scale:
    the comparison of two floats is the comparison of their positions.  Both
    zeros share one position. *)
Definition rank (x : float) : Z * Z * Z :=
  match x with
  | S754_infinity true => (-2, 0, 0)
  | S754_finite true m e => (-1, - e, Z.neg m)
  | S754_zero _ => (0, 0, 0)
  | S754_nan => (0, 0, 0)
  | S754_finite false m e => (1, e, Z.pos m)
  | S754_infinity false => (2, 0, 0)
  end.

Definition lex_lt (a b : Z * Z * Z) : Prop :=
  let '(a1, a2, a3) := a in
  let '(b1, b2, b3) := b in
  a1 < b1 \/ (a1 = b1 /\ (a2 < b2 \/ (a2 = b2 /\ a3 < b3))).

(** Keys strictly ascending, none of them NaN: the invariant of the key list
    of a [SortedDict]. *)
Fixpoint ascending (ks : list float) : bool :=
  match ks with
  | [] => true
  | k :: ks' =>
      negb (isnan k)
      && match ks' with [] => true | k' :: _ => flt k k' end
      && ascending ks'
  end.

(** Strictly descending, none NaN. *)
Fixpoint descending (ks : list float) : bool :=
  match ks with
  | [] => true
  | k :: ks' =>
      negb (isnan k)
      && match ks' with [] => true | k' :: _ => flt k' k end
      && descending ks'
  end.

(** No price of a batch of levels is NaN. *)
Definition ordered_prices (lvls : list PriceLevel.t) : bool :=
  forallb (fun l => negb (isnan (PriceLevel.price l))) lvls.



Module LevelsInv.

(** The key list is strictly ascending. *)
Definition sorted (self : Levels.t) : bool :=
  ascending (SortedDict.keys (Levels.levels self)).

(** Every level is stored under a key equal to its own price. *)
Definition coherent (self : Levels.t) : bool :=
  forallb (fun e => feq (PriceLevel.price (snd e)) (fst e)) (Levels.levels self).


(** The state after a sequence of [merge] calls. *)
Definition merges (batches : list (list PriceLevel.t)) (self : Levels.t) : Levels.t :=
  fold_left (fun s lvls => Levels.merge lvls s) batches self.

End LevelsInv.

Module BookInv.

Definition sorted (self : BinanceOrderBook.t) : bool :=
  LevelsInv.sorted (BinanceOrderBook.bids self)
  && LevelsInv.sorted (BinanceOrderBook.asks self).

Definition coherent (self : BinanceOrderBook.t) : bool :=
  LevelsInv.coherent (BinanceOrderBook.bids self)
  && LevelsInv.coherent (BinanceOrderBook.asks self).

Definition ordered_update (upd : PartialUpdate.t) : bool :=
  ordered_prices (PartialUpdate.bids upd) && ordered_prices (PartialUpdate.asks upd).

Definition ordered_snapshot (s : Snapshot.t) : bool :=
  ordered_prices (Snapshot.bids s) && ordered_prices (Snapshot.asks s).

End BookInv.

(** The items whose keys [islice] yields, in the order it yields them. *)
Definition slice_items {V : Type} (start stop : option Z) (reverse : bool)
  (d : SortedDict.t V) : list (float * V) :=
  let n := SortedDict.len d in
  if n =? 0 then []
  else
    let s := slice_index n start 0 in
    let e := slice_index n stop n in
    if s >=? e then []
    else
      let items := firstn (Z.to_nat (e - s)) (skipn (Z.to_nat s) d) in
      if reverse then rev items else items.

(** The effect of one iteration of [Levels.merge] on the item found for a
    key: untouched when the level is for another price, dropped when the
    level has quantity zero, otherwise replaced under the key object already
    stored (or the level's price when none was). *)
Definition key_or {V : Type} (r : option (float * V)) (k : float) : float :=
  match r with Some (k0, _) => k0 | None => k end.

Definition merge_effect (key : float) (r : option (float * PriceLevel.t))
  (level : PriceLevel.t) : option (float * PriceLevel.t) :=
  if feq (PriceLevel.price level) key
  then if feq (PriceLevel.quantity level) zero
       then None
       else Some (key_or r (PriceLevel.price level), level)
  else r.

(** The three shapes a composition of such effects can take. *)
Definition band (f : option (float * PriceLevel.t) -> option (float * PriceLevel.t))
  : Prop :=
  (forall r, f r = r)
  \/ (exists c, forall r, f r = c)
  \/ (exists k v, forall r, f r = Some (key_or r k, v)).

(** ** Sample data *)

Module Sample.

(** The float of a small integer. *)
Definition fl (z : Z) : float := binary_normalize 53 1024 z 0 false.

Definition level (p q : Z) : PriceLevel.t := PriceLevel.Make (fl p) (fl q).

(** Ten resident levels at prices 1.0 .. 10.0. *)
Definition ten_levels : list PriceLevel.t :=
  map (fun p => level p 1) [1; 2; 3; 4; 5; 6; 7; 8; 9; 10].

(** A snapshot at sequence position 100. *)
Definition snapshot : Snapshot.t :=
  Snapshot.Make ten_levels [level 11 2; level 12 3] 100.

(** The book built from it. *)
Definition book : BinanceOrderBook.t := BinanceOrderBook.init snapshot.

(** The three updates of the gap-boundary example. *)
Definition contiguous : PartialUpdate.t :=
  PartialUpdate.Make [level 10 0; level 9 4] [level 11 0; level 13 1] 101 105.

Definition gapped : PartialUpdate.t :=
  PartialUpdate.Make [level 10 0] [level 13 1] 107 110.

Definition stale : PartialUpdate.t :=
  PartialUpdate.Make [level 10 0] [level 13 1] 90 99.

(** Two resident levels. *)
Definition two : Levels.t := Levels.merge [level 1 5; level 2 6] Levels.init.

End Sample.

(** ** Construction of [PartialUpdate] and [Snapshot] from wire objects *)

(** The result of a constructor that also checks its input with [assert]:
    the value built, an exception of the functions above, or the
    [AssertionError] of a failed [assert]. *)
Inductive attempt (A : Type) : Type :=
| Built (a : A)
| Failed (e : exn)
| AssertionError.

Arguments Built {A} a.
Arguments Failed {A} e.
Arguments AssertionError {A}.

Definition lift {A : Type} (m : outcome A) : attempt A :=
  match m with
  | Return a => Built a
  | Raise e => Failed e
  end.

Definition and_then {A B : Type} (m : attempt A) (k : A -> attempt B) : attempt B :=
  match m with
  | Built a => k a
  | Failed e => Failed e
  | AssertionError => AssertionError
  end.

Notation "x <~ m ;; k" := (and_then m (fun x => k))
  (at level 61, m at next level, right associativity).

(** [obj[key]] with a string key: only a [dict] can be indexed by a string. *)
Definition py_getitem (obj : pyobj) (key : string) : outcome pyobj :=
  match obj with
  | PyDict d => dict_getitem d key
  | _ => Raise TypeError
  end.

Module Wire.

Section FromObject.
Variable float_of_str : string -> option float.

(** [[PriceLevel.from_object(o) for o in objs]] *)
Definition levels_from (objs : list pyobj) : attempt (list PriceLevel.t) :=
  lift (for_each (PriceLevel.from_object float_of_str) objs).

(** [PartialUpdate.from_object] *)
Definition PartialUpdate_from_object (obj : pyobj) : attempt PartialUpdate.t :=
  bids <~ lift (py_getitem obj "b") ;;
  asks <~ lift (py_getitem obj "a") ;;
  first_update_id <~ lift (py_getitem obj "U") ;;
  last_update_id <~ lift (py_getitem obj "u") ;;
  match bids with
  | PyList bids =>
      match asks with
      | PyList asks =>
          match first_update_id with
          | PyInt first_update_id =>
              match last_update_id with
              | PyInt last_update_id =>
                  bids <~ levels_from bids ;;
                  asks <~ levels_from asks ;;
                  Built (PartialUpdate.Make bids asks first_update_id last_update_id)
              | _ => AssertionError
              end
          | _ => AssertionError
          end
      | _ => AssertionError
      end
  | _ => AssertionError
  end.

(** [Snapshot.from_object] *)
Definition Snapshot_from_object (obj : pyobj) : attempt Snapshot.t :=
  bids <~ lift (py_getitem obj "bids") ;;
  asks <~ lift (py_getitem obj "asks") ;;
  last_update_id <~ lift (py_getitem obj "lastUpdateId") ;;
  match bids with
  | PyList bids =>
      match asks with
      | PyList asks =>
          match last_update_id with
          | PyInt last_update_id =>
              bids <~ levels_from bids ;;
              asks <~ levels_from asks ;;
              Built (Snapshot.Make bids asks last_update_id)
          | _ => AssertionError
          end
      | _ => AssertionError
      end
  | _ => AssertionError
  end.

End FromObject.

(** The two wire shapes of a level. *)
Definition level_as_list (l : PriceLevel.t) : pyobj :=
  PyList [PyFloat (PriceLevel.price l); PyFloat (PriceLevel.quantity l)].

Definition level_as_dict (l : PriceLevel.t) : pyobj :=
  PyDict [("price"%string, PyFloat (PriceLevel.price l));
          ("qty"%string, PyFloat (PriceLevel.quantity l))].

(** A depth-update message and a snapshot message carrying given records,
    each level in the shape [shape] gives it. *)
Definition update_message (shape : PriceLevel.t -> pyobj) (u : PartialUpdate.t) : pyobj :=
  PyDict [("e"%string, PyStr "depthUpdate");
          ("U"%string, PyInt (PartialUpdate.first_update_id u));
          ("u"%string, PyInt (PartialUpdate.last_update_id u));
          ("b"%string, PyList (map shape (PartialUpdate.bids u)));
          ("a"%string, PyList (map shape (PartialUpdate.asks u)))].

Definition snapshot_message (shape : PriceLevel.t -> pyobj) (s : Snapshot.t) : pyobj :=
  PyDict [("lastUpdateId"%string, PyInt (Snapshot.last_update_id s));
          ("bids"%string, PyList (map shape (Snapshot.bids s)));
          ("asks"%string, PyList (map shape (Snapshot.asks s)))].

End Wire.

(** ** More vocabulary for [Levels] *)

(** The last level of a batch that is priced [p]. *)
Definition last_for (p : float) (lvls : list PriceLevel.t) : option PriceLevel.t :=
  find (fun l => feq (PriceLevel.price l) p) (rev lvls).

(** No level of the first batch has a price equal to one of the second. *)
Definition disjoint_prices (l1 l2 : list PriceLevel.t) : bool :=
  forallb (fun a => forallb (fun b => negb (feq (PriceLevel.price a) (PriceLevel.price b))) l2) l1.

(** The prices of a batch are pairwise different. *)
Fixpoint distinct_prices (lvls : list PriceLevel.t) : bool :=
  match lvls with
  | [] => true
  | l :: lvls' => disjoint_prices [l] lvls' && distinct_prices lvls'
  end.

(** The levels of a batch with a zero, respectively non-zero, quantity. *)
Definition is_removal (l : PriceLevel.t) : bool := feq (PriceLevel.quantity l) zero.

Definition removals (lvls : list PriceLevel.t) : Z :=
  Z.of_nat (List.length (filter is_removal lvls)).

Definition placements (lvls : list PriceLevel.t) : Z :=
  Z.of_nat (List.length (filter (fun l => negb (is_removal l)) lvls)).

(** A stream of updates in which each one starts right after the previous
    one ends, the first one right after position [pos]. *)
Fixpoint contiguous_from (pos : Z) (upds : list PartialUpdate.t) : bool :=
  match upds with
  | [] => true
  | u :: upds' =>
      (PartialUpdate.first_update_id u =? pos + 1)
      && (PartialUpdate.first_update_id u <=? PartialUpdate.last_update_id u)
      && contiguous_from (PartialUpdate.last_update_id u) upds'
  end.

(** ** The exporter ([binance_exporter.py]) *)

Module ExportData.

Record t : Type := Make {
  bids10 : list (list float);
  asks10 : list (list float);
  bids10_size : list (list float);
  asks10_size : list (list float)
}.

(** [__init__] *)
Definition init : t := Make [] [] [] [].

(** [__len__] *)
Definition len (self : t) : Z := Z.of_nat (List.length (bids10 self)).

(** [on_orderbook_update]: one row of prices and one of sizes per side. *)
Definition on_orderbook_update (orderbook : BinanceOrderBook.t) (self : t) : outcome t :=
  best_bids10 <- BinanceOrderBook.best_bids 10 orderbook ;;
  best_asks10 <- BinanceOrderBook.best_asks 10 orderbook ;;
  Return (Make (bids10 self ++ [map PriceLevel.price best_bids10])
               (asks10 self ++ [map PriceLevel.price best_asks10])
               (bids10_size self ++ [map PriceLevel.quantity best_bids10])
               (asks10_size self ++ [map PriceLevel.quantity best_asks10])).

End ExportData.

Module Exporter.

(** A [dict] with [int] keys, as the list of its items in insertion order. *)
Fixpoint dict_get {A : Type} (m : list (Z * A)) (key : Z) : option A :=
  match m with
  | [] => None
  | (k, v) :: m' => if k =? key then Some v else dict_get m' key
  end.

(** [m[key] = value]: in place when the key is present, at the end when not. *)
Fixpoint dict_set {A : Type} (m : list (Z * A)) (key : Z) (value : A) : list (Z * A) :=
  match m with
  | [] => [(key, value)]
  | (k, v) :: m' =>
      if k =? key then (k, value) :: m' else (k, v) :: dict_set m' key value
  end.

(** [del m[key]] *)
Fixpoint dict_del {A : Type} (m : list (Z * A)) (key : Z) : outcome (list (Z * A)) :=
  match m with
  | [] => Raise KeyError
  | (k, v) :: m' =>
      if k =? key then Return m'
      else m'' <- dict_del m' key ;; Return ((k, v) :: m'')
  end.

(** The export histories by book id, and the books by snapshot timestamp (a
    [SortedDict]: its items in ascending key order). *)
Definition export_data : Type := list (Z * ExportData.t).
Definition orderbooks : Type := list (Z * BinanceOrderBook.t).

(** The module-level [on_orderbook_update].  The log line it may write does
    not touch the data and is left out. *)
Definition on_orderbook_update (data : export_data) (book_id : Z)
  (orderbook : BinanceOrderBook.t) : outcome export_data :=
  let data :=
    match dict_get data book_id with
    | Some _ => data
    | None => dict_set data book_id ExportData.init
    end in
  match dict_get data book_id with
  | Some history =>
      history <- ExportData.on_orderbook_update orderbook history ;;
      Return (dict_set data book_id history)
  | None => Raise KeyError
  end.

(** The first loop of [apply_update_to_orderbooks]: the export data, the
    books as the calls left them, and [orderbooks_to_delete]. *)
Fixpoint update_each (data : export_data) (books : orderbooks) (upd : PartialUpdate.t)
  : outcome (export_data * orderbooks * list Z) :=
  match books with
  | [] => Return (data, [], [])
  | (book_id, orderbook) :: books' =>
      match BinanceOrderBook.update upd orderbook with
      | (Return applied, orderbook) =>
          data <- (if applied then on_orderbook_update data book_id orderbook
                   else Return data) ;;
          r <- update_each data books' upd ;;
          let '(data, books', to_delete) := r in
          Return (data, (book_id, orderbook) :: books', to_delete)
      | (Raise (RuntimeWarning _ _), orderbook) =>
          r <- update_each data books' upd ;;
          let '(data, books', to_delete) := r in
          Return (data, (book_id, orderbook) :: books', book_id :: to_delete)
      | (Raise e, _) => Raise e
      end
  end.

(** The second loop: [for book_id in orderbooks_to_delete: del ...]. *)
Fixpoint delete_each (books : orderbooks) (to_delete : list Z) : outcome orderbooks :=
  match to_delete with
  | [] => Return books
  | book_id :: to_delete' =>
      books <- dict_del books book_id ;;
      delete_each books to_delete'
  end.

Definition apply_update_to_orderbooks (data : export_data) (books : orderbooks)
  (upd : PartialUpdate.t) : outcome (export_data * orderbooks) :=
  r <- update_each data books upd ;;
  let '(data, books, to_delete) := r in
  books <- delete_each books to_delete ;;
  Return (data, books).

(** The loop of [process_data_tar_gz] over the updates of the stream. *)
Fixpoint process_updates (data : export_data) (books : orderbooks)
  (upds : list PartialUpdate.t) : outcome (export_data * orderbooks) :=
  match upds with
  | [] => Return (data, books)
  | upd :: upds' =>
      r <- apply_update_to_orderbooks data books upd ;;
      process_updates (fst r) (snd r) upds'
  end.

(** [s.lstrip(chars)]: the leading characters that occur in [chars] go. *)
Fixpoint char_in (c : Ascii.ascii) (chars : string) : bool :=
  match chars with
  | EmptyString => false
  | String c' chars' => Ascii.eqb c c' || char_in c chars'
  end.

Fixpoint lstrip (chars s : string) : string :=
  match s with
  | EmptyString => EmptyString
  | String c s' => if char_in c chars then lstrip chars s' else s
  end.

(** In [build_orderbooks]: [full_prefix = f"./{snapshot_prefix}"] and the
    text handed to [int], [member.name.lstrip(f"{full_prefix}.")]. *)
Definition full_prefix (snapshot_prefix : string) : string :=
  ("./" ++ snapshot_prefix)%string.

Definition timestamp_text (snapshot_prefix name : string) : string :=
  lstrip (full_prefix snapshot_prefix ++ ".")%string name.

Definition BTC_USDT_SNAPSHOT : string := "binance.BTCUSDT@orderbook5000".

(** Histories and books used below. *)
Definition rows (data : export_data) (book_id : Z) : Z :=
  match dict_get data book_id with
  | Some history => ExportData.len history
  | None => 0
  end.

Definition signals_gap (upd : PartialUpdate.t) (book : BinanceOrderBook.t) : bool :=
  match fst (BinanceOrderBook.update upd book) with
  | Raise _ => true
  | Return _ => false
  end.

Definition is_applied (upd : PartialUpdate.t) (book : BinanceOrderBook.t) : bool :=
  match fst (BinanceOrderBook.update upd book) with
  | Return true => true
  | _ => false
  end.

Definition all_sorted (books : orderbooks) : bool :=
  forallb (fun e => BookInv.sorted (snd e)) books.

End Exporter.

(** The book ids of a registry are strictly ascending, as the items of a
    [SortedDict] are. *)
Fixpoint ascending_ids (books : Exporter.orderbooks) : bool :=
  match books with
  | [] => true
  | (id, _) :: books' =>
      match books' with [] => true | (id', _) :: _ => id <? id' end
      && ascending_ids books'
  end.

(** No update of the stream makes the book signal a gap. *)
Fixpoint survives (upds : list PartialUpdate.t) (book : BinanceOrderBook.t) : bool :=
  match upds with
  | [] => true
  | upd :: upds' =>
      negb (Exporter.signals_gap upd book)
      && survives upds' (snd (BinanceOrderBook.update upd book))
  end.

(** The number of books registered under [book_id] that apply the update. *)
Definition applied_count (upd : PartialUpdate.t) (books : Exporter.orderbooks)
  (book_id : Z) : Z :=
  Z.of_nat (List.length
              (filter (fun e => (fst e =? book_id) && Exporter.is_applied upd (snd e)) books)).

(** ** The container as the library implements it

    The operations of [SortedDict] above describe the container on a key
    list that is in order, which is all they are used for.  The library
    itself keeps the keys in a [SortedList] and finds positions by binary
    search ([bisect]); a NaN key, which compares [False] with everything,
    can leave that list out of order, and [SortedList.remove] then raises
    [ValueError] when the search lands on another key.  The module below
    follows the library ([sortedcontainers] 2.4, [sortedlist.py] and
    [sorteddict.py]) step by step.  Two things bound it: up to 2000 keys the
    [SortedList] is a single Python list whose last key is [_maxes[0]], and
    that is the case modelled; and a NaN price is taken to be a float object
    of its own (as [float] makes one from text), so that [key in self] does
    not find it among the stored keys. *)

Module Exact.

(** [bisect.bisect_right(a, x)]:
    [while lo < hi: mid = (lo + hi) // 2;]
    [if x < a[mid]: hi = mid else: lo = mid + 1]. *)
Fixpoint bisect_right_loop {V : Type} (steps : nat) (a : SortedDict.t V) (x : float)
  (lo hi : nat) : nat :=
  match steps with
  | O => lo
  | S steps' =>
      if (lo <? hi)%nat then
        let mid := ((lo + hi) / 2)%nat in
        match nth_error a mid with
        | Some (k, _) =>
            if flt x k then bisect_right_loop steps' a x lo mid
            else bisect_right_loop steps' a x (mid + 1)%nat hi
        | None => lo
        end
      else lo
  end.

Definition bisect_right {V : Type} (a : SortedDict.t V) (x : float) : nat :=
  bisect_right_loop (List.length a) a x 0%nat (List.length a).

(** [bisect.bisect_left(a, x)]:
    [if a[mid] < x: lo = mid + 1 else: hi = mid]. *)
Fixpoint bisect_left_loop {V : Type} (steps : nat) (a : SortedDict.t V) (x : float)
  (lo hi : nat) : nat :=
  match steps with
  | O => lo
  | S steps' =>
      if (lo <? hi)%nat then
        let mid := ((lo + hi) / 2)%nat in
        match nth_error a mid with
        | Some (k, _) =>
            if flt k x then bisect_left_loop steps' a x (mid + 1)%nat hi
            else bisect_left_loop steps' a x lo mid
        | None => lo
        end
      else lo
  end.

Definition bisect_left {V : Type} (a : SortedDict.t V) (x : float) : nat :=
  bisect_left_loop (List.length a) a x 0%nat (List.length a).

(** [a.insert(n, item)] and [del a[n]]. *)
Definition insert_at {V : Type} (n : nat) (item : float * V) (a : SortedDict.t V)
  : SortedDict.t V :=
  firstn n a ++ item :: skipn n a.

Definition delete_at {V : Type} (n : nat) (a : SortedDict.t V) : SortedDict.t V :=
  firstn n a ++ skipn (S n) a.

(** [_maxes[0]], the last key of the list, when there is one. *)
Definition last_key {V : Type} (a : SortedDict.t V) : option float :=
  match rev a with
  | [] => None
  | (k, _) :: _ => Some k
  end.

(** [SortedList.add]: into an empty list; else at the end when
    [bisect_right(_maxes, key)] is past the last maximum, that is unless
    [key < _maxes[0]]; else [insort] into the list. *)
Definition add {V : Type} (key : float) (value : V) (a : SortedDict.t V)
  : SortedDict.t V :=
  match last_key a with
  | None => [(key, value)]
  | Some max =>
      if flt key max then insert_at (bisect_right a key) (key, value) a
      else a ++ [(key, value)]
  end.

(** [SortedList.remove]: [ValueError] on an empty list, when
    [bisect_left(_maxes, key)] is past the last maximum ([_maxes[0] < key]),
    and when the key at [bisect_left(list, key)] is not equal to [key]. *)
Definition remove {V : Type} (key : float) (a : SortedDict.t V)
  : outcome (SortedDict.t V) :=
  match last_key a with
  | None => Raise ValueError
  | Some max =>
      if flt max key then Raise ValueError
      else
        let idx := bisect_left a key in
        match nth_error a idx with
        | Some (k, _) => if feq k key then Return (delete_at idx a) else Raise ValueError
        | None => Raise IndexError
        end
  end.

(** [SortedDict.__setitem__] *)
Definition setitem {V : Type} (key : float) (value : V) (d : SortedDict.t V)
  : SortedDict.t V :=
  if SortedDict.contains key d then SortedDict.replace key value d
  else add key value d.

(** [SortedDict.pop(key, None)]:
    [if key in self: self._list_remove(key); return dict.pop(self, key)]. *)
Definition pop {V : Type} (key : float) (d : SortedDict.t V)
  : outcome (option V * SortedDict.t V) :=
  match SortedDict.find_item key d with
  | Some (_, v) => d' <- remove key d ;; Return (Some v, d')
  | None => Return (None, d)
  end.

(** [d[p]] for the key object [p] stored with value [v]: the dict finds the
    entry whose key is equal to [p], or is [p] itself when nothing is equal
    to it (a NaN key). *)
Definition getitem_stored {V : Type} (d : SortedDict.t V) (item : float * V) : V :=
  match SortedDict.find_item (fst item) d with
  | Some (_, v) => v
  | None => snd item
  end.

(** One iteration of [Levels.merge]. *)
Definition merge_level (self : Levels.t) (level : PriceLevel.t) : outcome Levels.t :=
  if feq (PriceLevel.quantity level) zero
  then r <- pop (PriceLevel.price level) (Levels.levels self) ;;
       Return (Levels.Make (snd r))
  else Return (Levels.Make
                 (setitem (PriceLevel.price level) level (Levels.levels self))).

(** [Levels.merge]: how the loop ended, and the container as it left it. *)
Fixpoint merge (lvls : list PriceLevel.t) (self : Levels.t) : outcome unit * Levels.t :=
  match lvls with
  | [] => (Return tt, self)
  | level :: lvls' =>
      match merge_level self level with
      | Return self' => merge lvls' self'
      | Raise e => (Raise e, self)
      end
  end.

(** [Levels.max_slice] and [Levels.min_slice], run to exhaustion. *)
Definition max_slice (i : Z) (reverse : bool) (self : Levels.t) : list PriceLevel.t :=
  map (getitem_stored (Levels.levels self))
      (slice_items (Some (- i)) None reverse (Levels.levels self)).

Definition min_slice (i : Z) (reverse : bool) (self : Levels.t) : list PriceLevel.t :=
  map (getitem_stored (Levels.levels self))
      (slice_items None (Some i) reverse (Levels.levels self)).

(** [BinanceOrderBook.__init__]: no book when a merge raises. *)
Definition init (snapshot : Snapshot.t) : outcome BinanceOrderBook.t :=
  match merge (Snapshot.bids snapshot) Levels.init with
  | (Raise e, _) => Raise e
  | (Return _, bids) =>
      match merge (Snapshot.asks snapshot) Levels.init with
      | (Raise e, _) => Raise e
      | (Return _, asks) =>
          Return (BinanceOrderBook.Make bids asks (Snapshot.last_update_id snapshot))
      end
  end.

(** [BinanceOrderBook.update]: a merge that raises leaves the sides as far
    as it got and [last_update_id] as it was. *)
Definition update (upd : PartialUpdate.t) (self : BinanceOrderBook.t)
  : outcome bool * BinanceOrderBook.t :=
  if PartialUpdate.last_update_id upd <? BinanceOrderBook.last_update_id self
  then (Return false, self)
  else if PartialUpdate.first_update_id upd >? BinanceOrderBook.last_update_id self + 1
  then (Raise (RuntimeWarning (PartialUpdate.first_update_id upd)
                              (BinanceOrderBook.last_update_id self + 1)),
        self)
  else
    match merge (PartialUpdate.bids upd) (BinanceOrderBook.bids self) with
    | (Raise e, bids) =>
        (Raise e,
         BinanceOrderBook.Make bids (BinanceOrderBook.asks self)
                               (BinanceOrderBook.last_update_id self))
    | (Return _, bids) =>
        match merge (PartialUpdate.asks upd) (BinanceOrderBook.asks self) with
        | (Raise e, asks) =>
            (Raise e,
             BinanceOrderBook.Make bids asks (BinanceOrderBook.last_update_id self))
        | (Return _, asks) =>
            (Return true,
             BinanceOrderBook.Make bids asks (PartialUpdate.last_update_id upd))
        end
    end.

Definition best_bids (n : Z) (self : BinanceOrderBook.t) : list PriceLevel.t :=
  max_slice n true (BinanceOrderBook.bids self).

Definition best_asks (n : Z) (self : BinanceOrderBook.t) : list PriceLevel.t :=
  min_slice n false (BinanceOrderBook.asks self).

(** A driver feeding a stream of updates to one book, whatever each call
    reports. *)
Definition feed (upds : list PartialUpdate.t) (self : BinanceOrderBook.t)
  : BinanceOrderBook.t :=
  fold_left (fun book upd => snd (update upd book)) upds self.

End Exact.

(** Inputs with a NaN price. *)
Module NaNSample.

Definition nan_level (q : Z) : PriceLevel.t := PriceLevel.Make S754_nan (Sample.fl q).

(** The float 0.5. *)
Definition half : float := S754_finite false 4503599627370496 (-53).

(** A book with bids at 1.0 and 5.0, at sequence position 100. *)
Definition book : BinanceOrderBook.t :=
  BinanceOrderBook.init (Snapshot.Make [Sample.level 1 1; Sample.level 5 1] [] 100).

(** The update [101..101] with bids [nan/1, 0.5/2, 0.5/0]. *)
Definition update : PartialUpdate.t :=
  PartialUpdate.Make
    [nan_level 1; PriceLevel.Make half (Sample.fl 2); PriceLevel.Make half (Sample.fl 0)]
    [] 101 101.

(** A snapshot with bids [5/1, nan/2, 1/3]. *)
Definition snapshot : Snapshot.t :=
  Snapshot.Make [Sample.level 5 1; nan_level 2; Sample.level 1 3] [] 100.

(** Two updates that end at the same position, and what the first of them
    is applied to. *)
Definition first_105 : PartialUpdate.t :=
  PartialUpdate.Make [Sample.level 9 4] [] 101 105.

Definition second_105 : PartialUpdate.t :=
  PartialUpdate.Make [Sample.level 9 7] [] 105 105.

End NaNSample.

(** * Properties *)

(** ** The order on floats *)

Section FloatOrder.

Lemma flt_rank (a b : float) :
  flt a b = true <->
  isnan a = false /\ isnan b = false /\ lex_lt (rank a) (rank b).
Proof.
  unfold flt, SFltb.
  destruct a as [sa|sa| |sa ma ea], b as [sb|sb| |sb mb eb];
    try destruct sa; try destruct sb; simpl;
    try (split; [discriminate | intros (_ & _ & Hr); lia]);
    try (split; [intros _; repeat split; lia | reflexivity]);
    try (split; [discriminate | intros (H & _); discriminate]);
    try (split; [discriminate | intros (_ & H & _); discriminate]).
  all: change (Pos.compare_cont Eq ?x ?y) with (Pos.compare x y).
  all: destruct (Z.compare_spec ea eb); destruct (Pos.compare_spec ma mb); simpl.
  all: try (split; [discriminate | intros (_ & _ & Hr); lia]).
  all: try (split; [intros _; repeat split; lia | reflexivity]).
Qed.

Lemma feq_rank (a b : float) :
  feq a b = true <->
  isnan a = false /\ isnan b = false /\ rank a = rank b.
Proof.
  unfold feq, SFeqb.
  destruct a as [sa|sa| |sa ma ea], b as [sb|sb| |sb mb eb];
    try destruct sa; try destruct sb; simpl;
    try (split; [discriminate | intros (_ & _ & H); discriminate]);
    try (split; [intros _; repeat split; reflexivity | reflexivity]);
    try (split; [discriminate | intros (H & _); discriminate]);
    try (split; [discriminate | intros (_ & H & _); discriminate]).
  all: change (Pos.compare_cont Eq ?x ?y) with (Pos.compare x y).
  all: destruct (Z.compare_spec ea eb); destruct (Pos.compare_spec ma mb); simpl.
  all: try (split; [discriminate | intros (_ & _ & Hr); injection Hr; lia]).
  all: try (split; [intros _; repeat split; subst; reflexivity | reflexivity]).
Qed.

Lemma lex_lt_trans (x y z : Z * Z * Z) : lex_lt x y -> lex_lt y z -> lex_lt x z.
Proof. destruct x as [[? ?] ?], y as [[? ?] ?], z as [[? ?] ?]; simpl; lia. Qed.

Lemma lex_lt_irrefl (x : Z * Z * Z) : ~ lex_lt x x.
Proof. destruct x as [[? ?] ?]; simpl; lia. Qed.

Lemma lex_lt_total (x y : Z * Z * Z) : lex_lt x y \/ x = y \/ lex_lt y x.
Proof.
  destruct x as [[x1 x2] x3], y as [[y1 y2] y3]; simpl.
  destruct (Z.lt_trichotomy x1 y1) as [H1 | [H1 | H1]]; [lia | subst y1 | lia].
  destruct (Z.lt_trichotomy x2 y2) as [H2 | [H2 | H2]]; [lia | subst y2 | lia].
  destruct (Z.lt_trichotomy x3 y3) as [H3 | [H3 | H3]]; [lia | subst y3 | lia].
  right; left; reflexivity.
Qed.

Lemma flt_nonnan (a b : float) :
  flt a b = true -> isnan a = false /\ isnan b = false.
Proof. intros H; apply flt_rank in H; tauto. Qed.

Lemma feq_nonnan (a b : float) :
  feq a b = true -> isnan a = false /\ isnan b = false.
Proof. intros H; apply feq_rank in H; tauto. Qed.

Lemma flt_trans (a b c : float) :
  flt a b = true -> flt b c = true -> flt a c = true.
Proof.
  intros H1 H2; apply flt_rank in H1, H2; apply flt_rank.
  destruct H1 as (Ha & _ & H1), H2 as (_ & Hc & H2).
  repeat split; trivial. eapply lex_lt_trans; eassumption.
Qed.

Lemma flt_irrefl (a : float) : flt a a = false.
Proof.
  destruct (flt a a) eqn:E; trivial.
  apply flt_rank in E. destruct E as (_ & _ & E).
  now apply lex_lt_irrefl in E.
Qed.

Lemma flt_asym (a b : float) : flt a b = true -> flt b a = false.
Proof.
  intros H. destruct (flt b a) eqn:E; trivial.
  pose proof (flt_trans _ _ _ H E) as Haa. now rewrite flt_irrefl in Haa.
Qed.

Lemma feq_refl (a : float) : isnan a = false -> feq a a = true.
Proof. intros H; apply feq_rank; auto. Qed.

Lemma feq_sym (a b : float) : feq a b = feq b a.
Proof.
  apply Bool.eq_iff_eq_true. rewrite !feq_rank. intuition congruence.
Qed.

Lemma feq_trans (a b c : float) :
  feq a b = true -> feq b c = true -> feq a c = true.
Proof. rewrite !feq_rank. intuition congruence. Qed.

Lemma feq_flt_l (a b c : float) : feq a b = true -> flt a c = flt b c.
Proof.
  intros H. apply feq_rank in H. destruct H as (Ha & Hb & H).
  apply Bool.eq_iff_eq_true. rewrite !flt_rank, H. tauto.
Qed.

Lemma feq_flt_r (a b c : float) : feq a b = true -> flt c a = flt c b.
Proof.
  intros H. apply feq_rank in H. destruct H as (Ha & Hb & H).
  apply Bool.eq_iff_eq_true. rewrite !flt_rank, H. tauto.
Qed.

Lemma feq_feq_l (a b c : float) : feq a b = true -> feq a c = feq b c.
Proof.
  intros H. apply feq_rank in H. destruct H as (Ha & Hb & H).
  apply Bool.eq_iff_eq_true. rewrite !feq_rank, H. tauto.
Qed.

Lemma feq_feq_r (a b c : float) : feq a b = true -> feq c a = feq c b.
Proof. intros H. rewrite (feq_sym c a), (feq_sym c b). now apply feq_feq_l. Qed.

Lemma flt_not_feq (a b : float) : flt a b = true -> feq a b = false.
Proof.
  intros H. destruct (feq a b) eqn:E; trivial.
  rewrite (feq_flt_l _ _ b E), flt_irrefl in H. discriminate.
Qed.

Lemma flt_total (a b : float) :
  isnan a = false -> isnan b = false ->
  flt a b = false -> feq a b = false -> flt b a = true.
Proof.
  intros Ha Hb Hlt Heq. apply flt_rank. repeat split; trivial.
  destruct (lex_lt_total (rank a) (rank b)) as [H | [H | H]]; trivial.
  - assert (flt a b = true) by (apply flt_rank; auto). congruence.
  - assert (feq a b = true) by (apply feq_rank; auto). congruence.
Qed.

End FloatOrder.

(** ** Strictly ascending and descending key lists *)

Section Ascending.

Lemma ascending_cons (k : float) (ks : list float) :
  ascending (k :: ks) = true <->
  isnan k = false /\ Forall (fun k' => flt k k' = true) ks /\ ascending ks = true.
Proof.
  revert k. induction ks as [| k' ks IH]; intros k.
  - simpl. rewrite !andb_true_r, negb_true_iff. intuition.
  - change (ascending (k :: k' :: ks))
      with (negb (isnan k) && flt k k' && ascending (k' :: ks)).
    rewrite !andb_true_iff, negb_true_iff. split.
    + intros ((Hk & Hlt) & Hasc). repeat split; trivial.
      constructor; trivial.
      apply IH in Hasc. destruct Hasc as (_ & Hall & _).
      eapply Forall_impl; [| exact Hall].
      intros a Ha; simpl in Ha |- *. eapply flt_trans; eassumption.
    + intros (Hk & Hall & Hasc). inversion Hall; subst. auto.
Qed.

Lemma descending_cons (k : float) (ks : list float) :
  descending (k :: ks) = true <->
  isnan k = false /\ Forall (fun k' => flt k' k = true) ks /\ descending ks = true.
Proof.
  revert k. induction ks as [| k' ks IH]; intros k.
  - simpl. rewrite !andb_true_r, negb_true_iff. intuition.
  - change (descending (k :: k' :: ks))
      with (negb (isnan k) && flt k' k && descending (k' :: ks)).
    rewrite !andb_true_iff, negb_true_iff. split.
    + intros ((Hk & Hlt) & Hdesc). repeat split; trivial.
      constructor; trivial.
      apply IH in Hdesc. destruct Hdesc as (_ & Hall & _).
      eapply Forall_impl; [| exact Hall].
      intros a Ha; simpl in Ha |- *. eapply flt_trans; eassumption.
    + intros (Hk & Hall & Hdesc). inversion Hall; subst. auto.
Qed.

Lemma ascending_app (l1 l2 : list float) :
  ascending (l1 ++ l2) = true <->
  ascending l1 = true /\ ascending l2 = true /\
  (forall a b, In a l1 -> In b l2 -> flt a b = true).
Proof.
  induction l1 as [| k l1 IH].
  - simpl. intuition.
  - rewrite <- app_comm_cons, !ascending_cons, Forall_app, IH. split.
    + intros (Hk & (H1 & H2) & Ha1 & Ha2 & Hx). repeat split; trivial.
      intros a b [-> | Ha] Hb; [| now apply Hx].
      rewrite Forall_forall in H2. now apply H2.
    + intros ((Hk & H1 & Ha1) & Ha2 & Hx). repeat split; trivial.
      * apply Forall_forall. intros b Hb. apply Hx; simpl; auto.
      * intros a b Ha Hb. apply Hx; simpl; auto.
Qed.

Lemma descending_app (l1 l2 : list float) :
  descending (l1 ++ l2) = true <->
  descending l1 = true /\ descending l2 = true /\
  (forall a b, In a l1 -> In b l2 -> flt b a = true).
Proof.
  induction l1 as [| k l1 IH].
  - simpl. intuition.
  - rewrite <- app_comm_cons, !descending_cons, Forall_app, IH. split.
    + intros (Hk & (H1 & H2) & Ha1 & Ha2 & Hx). repeat split; trivial.
      intros a b [-> | Ha] Hb; [| now apply Hx].
      rewrite Forall_forall in H2. now apply H2.
    + intros ((Hk & H1 & Ha1) & Ha2 & Hx). repeat split; trivial.
      * apply Forall_forall. intros b Hb. apply Hx; simpl; auto.
      * intros a b Ha Hb. apply Hx; simpl; auto.
Qed.

Lemma ascending_rev (l : list float) :
  ascending l = true -> descending (rev l) = true.
Proof.
  induction l as [| k l IH]; trivial.
  intros H. apply ascending_cons in H. destruct H as (Hk & Hall & Hasc).
  simpl rev. apply descending_app. repeat split; auto.
  - simpl. now rewrite Hk.
  - intros a b Ha [<- | []]. apply in_rev in Ha.
    rewrite Forall_forall in Hall. now apply Hall.
Qed.

Lemma ascending_firstn (n : nat) (l : list float) :
  ascending l = true -> ascending (firstn n l) = true.
Proof.
  intros H. rewrite <- (firstn_skipn n l) in H.
  apply ascending_app in H. tauto.
Qed.

Lemma ascending_skipn (n : nat) (l : list float) :
  ascending l = true -> ascending (skipn n l) = true.
Proof.
  intros H. rewrite <- (firstn_skipn n l) in H.
  apply ascending_app in H. tauto.
Qed.

Lemma ascending_nonnan (l : list float) (k : float) :
  ascending l = true -> In k l -> isnan k = false.
Proof.
  induction l as [| k' l IH]; [easy |].
  intros H [-> | Hin]; apply ascending_cons in H; [tauto |].
  apply IH; tauto.
Qed.

(** Equal prices can stand for the keys in an ordered list. *)
Lemma ascending_feq (l1 l2 : list float) :
  Forall2 (fun a b => feq a b = true) l1 l2 ->
  ascending l2 = true -> ascending l1 = true.
Proof.
  induction 1 as [| a b l1 l2 Hab Hall IH]; trivial.
  rewrite !ascending_cons. intros (Hb & Hlt & Hasc).
  repeat split; auto.
  - now apply feq_nonnan in Hab.
  - clear IH Hasc. induction Hall as [| c d l1 l2 Hcd Hall IH]; constructor.
    + inversion Hlt; subst.
      rewrite (feq_flt_l _ _ _ Hab), (feq_flt_r _ _ _ Hcd). assumption.
    + apply IH. now inversion Hlt.
Qed.

Lemma descending_feq (l1 l2 : list float) :
  Forall2 (fun a b => feq a b = true) l1 l2 ->
  descending l2 = true -> descending l1 = true.
Proof.
  induction 1 as [| a b l1 l2 Hab Hall IH]; trivial.
  rewrite !descending_cons. intros (Hb & Hlt & Hdesc).
  repeat split; auto.
  - now apply feq_nonnan in Hab.
  - clear IH Hdesc. induction Hall as [| c d l1 l2 Hcd Hall IH]; constructor.
    + inversion Hlt; subst.
      rewrite (feq_flt_r _ _ _ Hab), (feq_flt_l _ _ _ Hcd). assumption.
    + apply IH. now inversion Hlt.
Qed.

End Ascending.

(** ** The sorted dictionary *)

Section SortedDictFacts.

Variable V : Type.
Implicit Types (d : SortedDict.t V) (k key : float) (v : V).

Lemma find_item_some key d k v :
  SortedDict.find_item key d = Some (k, v) -> In (k, v) d /\ feq k key = true.
Proof.
  induction d as [| [k0 v0] d IH]; simpl; [discriminate |].
  destruct (feq k0 key) eqn:E.
  - intros [= <- <-]. auto.
  - intros H; apply IH in H; tauto.
Qed.

Lemma find_item_none key d :
  SortedDict.find_item key d = None <->
  forall k v, In (k, v) d -> feq k key = false.
Proof.
  induction d as [| [k0 v0] d IH]; simpl.
  - split; [intros _ ? ? [] | trivial].
  - destruct (feq k0 key) eqn:E.
    + split; [discriminate |]. intros H.
      rewrite (H k0 v0) in E by auto. discriminate.
    + rewrite IH. split.
      * intros H k v [[= <- <-] | Hin]; eauto.
      * intros H k v Hin. apply (H k v). auto.
Qed.

(** A key equal to one below every stored key is not stored. *)
Lemma find_item_above key k d :
  Forall (fun k' => flt k k' = true) (SortedDict.keys d) ->
  feq k key = true ->
  SortedDict.find_item key d = None.
Proof.
  intros Hall Heq. apply find_item_none. intros k' v Hin.
  rewrite Forall_forall in Hall.
  assert (Hlt : flt k k' = true).
  { apply Hall. apply in_map_iff. exists (k', v). auto. }
  apply flt_not_feq in Hlt.
  rewrite feq_sym, <- (feq_feq_l _ _ k' Heq). assumption.
Qed.

(** In a sorted dictionary the item found for a key is the only item stored
    under an equal key. *)
Lemma find_item_sorted d k v key :
  ascending (SortedDict.keys d) = true ->
  In (k, v) d -> feq k key = true ->
  SortedDict.find_item key d = Some (k, v).
Proof.
  induction d as [| [k0 v0] d IH]; simpl; [easy |].
  intros Hasc Hin Heq.
  apply ascending_cons in Hasc. destruct Hasc as (Hk0 & Hall & Hasc).
  destruct Hin as [[= -> ->] | Hin].
  - now rewrite Heq.
  - destruct (feq k0 key) eqn:E; [| auto].
    pose proof (find_item_above key k0 d Hall E) as Hn.
    rewrite find_item_none in Hn. rewrite (Hn k v Hin) in Heq. discriminate.
Qed.

Lemma keys_replace key v d :
  SortedDict.keys (SortedDict.replace key v d) = SortedDict.keys d.
Proof.
  induction d as [| [k0 v0] d IH]; simpl; trivial.
  destruct (feq k0 key); simpl; [trivial | now rewrite IH].
Qed.

Lemma In_insort key v d e :
  In e (SortedDict.insort key v d) <-> e = (key, v) \/ In e d.
Proof.
  induction d as [| [k0 v0] d IH]; simpl.
  - intuition.
  - destruct (flt key k0); simpl; [| rewrite IH]; intuition.
Qed.

Lemma In_remove key d e : In e (SortedDict.remove key d) -> In e d.
Proof.
  induction d as [| [k0 v0] d IH]; simpl; trivial.
  destruct (feq k0 key); simpl; intuition.
Qed.

Lemma In_replace key v d e :
  In e (SortedDict.replace key v d) ->
  (snd e = v /\ feq (fst e) key = true) \/ In e d.
Proof.
  induction d as [| [k0 v0] d IH]; simpl; auto.
  destruct (feq k0 key) eqn:E; simpl.
  - intros [<- | Hin]; auto.
  - intros [<- | Hin]; auto. apply IH in Hin. tauto.
Qed.

Lemma In_setitem key v d e :
  isnan key = false ->
  In e (SortedDict.setitem key v d) ->
  (snd e = v /\ feq (fst e) key = true) \/ In e d.
Proof.
  intros Hnan. unfold SortedDict.setitem.
  destruct (SortedDict.contains key d).
  - apply In_replace.
  - intros H. apply In_insort in H. destruct H as [-> | H]; auto.
    left. simpl. split; trivial. now apply feq_refl.
Qed.


Lemma In_pop key d e : In e (snd (SortedDict.pop key d)) -> In e d.
Proof.
  unfold SortedDict.pop.
  destruct (SortedDict.find_item key d) as [[k v] |]; simpl; trivial.
  apply In_remove.
Qed.

Lemma ascending_insort key v d :
  isnan key = false ->
  SortedDict.find_item key d = None ->
  ascending (SortedDict.keys d) = true ->
  ascending (SortedDict.keys (SortedDict.insort key v d)) = true.
Proof.
  intros Hnan. induction d as [| [k0 v0] d IH]; simpl.
  - intros _ _. now rewrite Hnan.
  - destruct (feq k0 key) eqn:E; [discriminate |]. intros Hnone Hasc.
    pose proof Hasc as Hasc'.
    apply ascending_cons in Hasc. destruct Hasc as (Hk0 & Hall & Hasc).
    destruct (flt key k0) eqn:Hlt.
    + change (ascending (key :: SortedDict.keys ((k0, v0) :: d)) = true).
      apply ascending_cons. repeat split; trivial.
      constructor; trivial.
      eapply Forall_impl; [| exact Hall].
      intros a Ha; simpl in Ha |- *. eapply flt_trans; eassumption.
    + change (ascending (k0 :: SortedDict.keys (SortedDict.insort key v d)) = true).
      apply ascending_cons. repeat split; auto.
      apply Forall_forall. intros x Hx.
      apply in_map_iff in Hx. destruct Hx as (e & <- & He).
      apply In_insort in He. destruct He as [-> | He].
      * simpl. apply flt_total; trivial. now rewrite feq_sym.
      * rewrite Forall_forall in Hall. apply Hall. now apply in_map.
Qed.

Lemma ascending_remove key d :
  ascending (SortedDict.keys d) = true ->
  ascending (SortedDict.keys (SortedDict.remove key d)) = true.
Proof.
  induction d as [| [k0 v0] d IH]; simpl; trivial.
  intros Hasc. apply ascending_cons in Hasc. destruct Hasc as (Hk0 & Hall & Hasc).
  destruct (feq k0 key); trivial.
  change (ascending (k0 :: SortedDict.keys (SortedDict.remove key d)) = true).
  apply ascending_cons. repeat split; auto.
  apply Forall_forall. intros x Hx.
  apply in_map_iff in Hx. destruct Hx as (e & <- & He).
  apply In_remove in He.
  rewrite Forall_forall in Hall. apply Hall. now apply in_map.
Qed.

Lemma ascending_setitem key v d :
  isnan key = false ->
  ascending (SortedDict.keys d) = true ->
  ascending (SortedDict.keys (SortedDict.setitem key v d)) = true.
Proof.
  intros Hnan Hasc. unfold SortedDict.setitem, SortedDict.contains.
  destruct (SortedDict.find_item key d) eqn:E.
  - now rewrite keys_replace.
  - now apply ascending_insort.
Qed.

Lemma ascending_pop key d :
  ascending (SortedDict.keys d) = true ->
  ascending (SortedDict.keys (snd (SortedDict.pop key d))) = true.
Proof.
  intros Hasc. unfold SortedDict.pop.
  destruct (SortedDict.find_item key d) as [[k v] |]; simpl; trivial.
  now apply ascending_remove.
Qed.

End SortedDictFacts.

(** ** The update state machine *)

Section UpdateStateMachine.

Import BinanceOrderBook.

Lemma update_cases (u : PartialUpdate.t) (self : t) :
  (PartialUpdate.last_update_id u < last_update_id self
   /\ update u self = (Return false, self))
  \/ (last_update_id self <= PartialUpdate.last_update_id u
      /\ PartialUpdate.first_update_id u > last_update_id self + 1
      /\ update u self =
         (Raise (RuntimeWarning (PartialUpdate.first_update_id u)
                                (last_update_id self + 1)), self))
  \/ (last_update_id self <= PartialUpdate.last_update_id u
      /\ PartialUpdate.first_update_id u <= last_update_id self + 1
      /\ update u self =
         (Return true,
          Make (Levels.merge (PartialUpdate.bids u) (bids self))
               (Levels.merge (PartialUpdate.asks u) (asks self))
               (PartialUpdate.last_update_id u))).
Proof.
  unfold update.
  destruct (Z.ltb_spec (PartialUpdate.last_update_id u) (last_update_id self)).
  - left. auto.
  - right.
    destruct (Z.gtb_spec (PartialUpdate.first_update_id u) (last_update_id self + 1)).
    + left. repeat split; trivial. lia.
    + right. repeat split; trivial.
Qed.

(** The concrete boundary cases: a book at 100 applies [101..105] and moves
    to 105, reports a gap for [107..110], and skips [90..99]. *)
Example update_boundary :
  last_update_id Sample.book = 100
  /\ fst (update Sample.contiguous Sample.book) = Return true
  /\ last_update_id (snd (update Sample.contiguous Sample.book)) = 105
  /\ update Sample.gapped Sample.book = (Raise (RuntimeWarning 107 101), Sample.book)
  /\ update Sample.stale Sample.book = (Return false, Sample.book).
Proof. repeat split. Qed.

Lemma feed_app (us1 us2 : list PartialUpdate.t) (self : t) :
  feed (us1 ++ us2) self = feed us2 (feed us1 self).
Proof. unfold feed. apply fold_left_app. Qed.

Lemma update_monotone (u : PartialUpdate.t) (self : t) :
  last_update_id self <= last_update_id (snd (update u self)).
Proof.
  destruct (update_cases u self) as [(H1 & ->) | [(H1 & H2 & ->) | (H1 & H2 & ->)]];
    simpl; lia.
Qed.

Lemma feed_monotone (us : list PartialUpdate.t) (self : t) :
  last_update_id self <= last_update_id (feed us self).
Proof.
  revert self. induction us as [| u us IH]; intros self; simpl.
  - apply Z.le_refl.
  - eapply Z.le_trans; [apply (update_monotone u) | apply IH].
Qed.

(** C2. [last_update_id] is the snapshot's right after construction, is the
    update's [last_update_id] after every call that returns [True], and
    never decreases along any sequence of calls, whatever each call
    reports: the value after a prefix of the calls is at most the value
    after the whole sequence. *)
Theorem last_update_id_tracks :
  (forall s, last_update_id (init s) = Snapshot.last_update_id s)
  /\ (forall self u,
        fst (update u self) = Return true ->
        last_update_id (snd (update u self)) = PartialUpdate.last_update_id u)
  /\ (forall self us1 us2,
        last_update_id (feed us1 self) <= last_update_id (feed (us1 ++ us2) self)).
Proof.
  split; [reflexivity | split].
  - intros self u.
    destruct (update_cases u self) as [(H1 & ->) | [(H1 & H2 & ->) | (H1 & H2 & ->)]];
      simpl; intros; trivial; discriminate.
  - intros self us1 us2. rewrite feed_app. apply feed_monotone.
Qed.

Lemma last_update_id_tracks_witness :
  last_update_id (init Sample.snapshot) = 100
  /\ last_update_id (snd (update Sample.contiguous Sample.book)) = 105
  /\ last_update_id (feed [Sample.stale; Sample.gapped] Sample.book)
     <= last_update_id
          (feed ([Sample.stale; Sample.gapped] ++ [Sample.contiguous]) Sample.book).
Proof.
  destruct last_update_id_tracks as (Hinit & Happlied & Hmono).
  split; [exact (Hinit Sample.snapshot) | split].
  - apply (Happlied Sample.book Sample.contiguous). reflexivity.
  - apply (Hmono Sample.book [Sample.stale; Sample.gapped] [Sample.contiguous]).
Defined.



End UpdateStateMachine.

(** ** Construction of a price level *)

Section FromObject.

Variable float_of_str : string -> option float.

Local Abbreviation from_object := (PriceLevel.from_object float_of_str).
Local Abbreviation to_float := (py_float float_of_str).

Lemma from_object_dict (d : list (string * pyobj)) (p q : pyobj) :
  dict_getitem d "price" = Return p ->
  dict_getitem d "qty" = Return q ->
  from_object (PyDict d) =
  (x <- to_float p ;; y <- to_float q ;; Return (PriceLevel.Make x y)).
Proof.
  intros Hp Hq. unfold from_object, PriceLevel.from_object.
  rewrite Hp. simpl. fold to_float.
  destruct (to_float p); simpl; trivial.
  rewrite Hq. reflexivity.
Qed.

Lemma from_object_list (p q : pyobj) (rest : list pyobj) :
  from_object (PyList (p :: q :: rest)) =
  (x <- to_float p ;; y <- to_float q ;; Return (PriceLevel.Make x y)).
Proof.
  unfold from_object, PriceLevel.from_object.
  assert (H0 : list_getitem (p :: q :: rest) 0 = Return p).
  { unfold list_getitem. simpl Z.ltb. cbv iota.
    replace (0 <? 0) with false by reflexivity. cbv iota.
    destruct (Z.leb_spec (Z.of_nat (List.length (p :: q :: rest))) 0) as [H | H];
      [simpl List.length in H; lia | reflexivity]. }
  assert (H1 : list_getitem (p :: q :: rest) 1 = Return q).
  { unfold list_getitem.
    replace (1 <? 0) with false by reflexivity. cbv iota.
    destruct (Z.leb_spec (Z.of_nat (List.length (p :: q :: rest))) 1) as [H | H];
      [simpl List.length in H; lia | reflexivity]. }
  rewrite H0. simpl. fold to_float.
  destruct (to_float p); simpl; trivial.
  rewrite H1. reflexivity.
Qed.

(** C8. A dict holding [p] under ["price"] and [q] under ["qty"] and the
    two-element list [[p, q]] construct the same result: the same
    [PriceLevel(float(p), float(q))] when both conversions succeed, the
    same exception otherwise.  An object that is neither a dict nor a list
    raises [TypeError]. *)
Theorem from_object_shapes :
  (forall d p q,
      dict_getitem d "price" = Return p ->
      dict_getitem d "qty" = Return q ->
      from_object (PyDict d) = from_object (PyList [p; q])
      /\ forall x y,
          to_float p = Return x -> to_float q = Return y ->
          from_object (PyDict d) = Return (PriceLevel.Make x y))
  /\ (forall obj,
        (forall d, obj <> PyDict d) -> (forall l, obj <> PyList l) ->
        from_object obj = Raise TypeError).
Proof.
  split.
  - intros d p q Hp Hq.
    rewrite (from_object_dict d p q Hp Hq), from_object_list. split; trivial.
    intros x y -> ->. reflexivity.
  - intros obj Hd Hl. destruct obj; trivial.
    + now elim (Hl l).
    + now elim (Hd d).
Qed.

End FromObject.

(** The literal shapes [{"price": 10.5, "qty": 2.0}] and [[10.5, 2.0]], and
    a tuple. *)
Lemma from_object_shapes_witness :
  let parse := fun _ : string => @None float in
  let p := PyFloat (S754_finite false 5910974510923776 (-49)) in
  let q := PyInt 2 in
  PriceLevel.from_object parse (PyDict [("price"%string, p); ("qty"%string, q)])
  = PriceLevel.from_object parse (PyList [p; q])
  /\ PriceLevel.from_object parse (PyDict [("price"%string, p); ("qty"%string, q)])
     = Return (PriceLevel.Make (S754_finite false 5910974510923776 (-49)) (Sample.fl 2))
  /\ PriceLevel.from_object parse (PyTuple [p; q]) = Raise TypeError.
Proof.
  intros parse p q.
  destruct (from_object_shapes parse) as (Hsame & Hother).
  destruct (Hsame [("price"%string, p); ("qty"%string, q)] p q) as (H1 & H2);
    [reflexivity | reflexivity |].
  split; [exact H1 | split].
  - apply H2; reflexivity.
  - apply Hother; intros; discriminate.
Defined.

(** ** Lookup after an update of the dictionary *)

Section SortedDictLookup.

Variable V : Type.
Implicit Types (d : SortedDict.t V) (k key : float) (v : V).

Lemma ascending_keys_cons k v d :
  ascending (SortedDict.keys ((k, v) :: d)) = true <->
  isnan k = false
  /\ Forall (fun k' => flt k k' = true) (SortedDict.keys d)
  /\ ascending (SortedDict.keys d) = true.
Proof. exact (ascending_cons k (SortedDict.keys d)). Qed.

Lemma find_item_feq key key' d :
  feq key key' = true ->
  SortedDict.find_item key d = SortedDict.find_item key' d.
Proof.
  intros Heq. induction d as [| [k0 v0] d IH]; simpl; trivial.
  now rewrite (feq_feq_r _ _ k0 Heq), IH.
Qed.

Lemma find_item_replace key v d key' :
  SortedDict.find_item key' (SortedDict.replace key v d) =
  if feq key key'
  then option_map (fun e => (fst e, v)) (SortedDict.find_item key' d)
  else SortedDict.find_item key' d.
Proof.
  induction d as [| [k0 v0] d IH]; simpl.
  - now destruct (feq key key').
  - destruct (feq k0 key) eqn:E1; simpl; destruct (feq k0 key') eqn:E2.
    + now rewrite <- (feq_feq_l _ _ key' E1), E2.
    + now rewrite <- (feq_feq_l _ _ key' E1), E2.
    + now rewrite <- (feq_feq_r _ _ key E2), (feq_sym key k0), E1.
    + apply IH.
Qed.

Lemma find_item_insort key v d key' :
  SortedDict.find_item key d = None ->
  SortedDict.find_item key' (SortedDict.insort key v d) =
  if feq key key' then Some (key, v) else SortedDict.find_item key' d.
Proof.
  induction d as [| [k0 v0] d IH]; simpl.
  - now destruct (feq key key').
  - destruct (feq k0 key) eqn:E1; [discriminate |]. intros Hnone.
    destruct (flt key k0); simpl; trivial.
    destruct (feq k0 key') eqn:E2; [| now apply IH].
    now rewrite <- (feq_feq_r _ _ key E2), (feq_sym key k0), E1.
Qed.

Lemma find_item_setitem key v d key' :
  SortedDict.find_item key' (SortedDict.setitem key v d) =
  if feq key key'
  then Some (key_or (SortedDict.find_item key' d) key, v)
  else SortedDict.find_item key' d.
Proof.
  unfold SortedDict.setitem, SortedDict.contains.
  destruct (SortedDict.find_item key d) as [[k0 v0] |] eqn:E.
  - rewrite find_item_replace.
    destruct (feq key key') eqn:Heq; trivial.
    rewrite <- (find_item_feq _ _ d Heq), E. reflexivity.
  - rewrite find_item_insort by assumption.
    destruct (feq key key') eqn:Heq; trivial.
    rewrite <- (find_item_feq _ _ d Heq), E. reflexivity.
Qed.

Lemma find_item_remove key d key' :
  ascending (SortedDict.keys d) = true ->
  SortedDict.find_item key' (SortedDict.remove key d) =
  if feq key key' then None else SortedDict.find_item key' d.
Proof.
  induction d as [| [k0 v0] d IH]; simpl.
  - now destruct (feq key key').
  - intros Hasc. apply ascending_cons in Hasc. destruct Hasc as (Hk0 & Hall & Hasc).
    destruct (feq k0 key) eqn:E1.
    + rewrite <- (feq_feq_l _ _ key' E1).
      destruct (feq k0 key') eqn:E2; trivial.
      now apply find_item_above with (k := k0).
    + simpl. destruct (feq k0 key') eqn:E2; [| now apply IH].
      now rewrite <- (feq_feq_r _ _ key E2), (feq_sym key k0), E1.
Qed.

Lemma find_item_pop key d key' :
  ascending (SortedDict.keys d) = true ->
  SortedDict.find_item key' (snd (SortedDict.pop key d)) =
  if feq key key' then None else SortedDict.find_item key' d.
Proof.
  intros Hasc. unfold SortedDict.pop.
  destruct (SortedDict.find_item key d) as [[k0 v0] |] eqn:E; simpl.
  - now apply find_item_remove.
  - destruct (feq key key') eqn:Heq; trivial.
    now rewrite <- (find_item_feq _ _ d Heq).
Qed.


(** Two sorted dictionaries that answer every lookup alike are the same. *)
Lemma sorted_ext d1 d2 :
  ascending (SortedDict.keys d1) = true ->
  ascending (SortedDict.keys d2) = true ->
  (forall key, SortedDict.find_item key d1 = SortedDict.find_item key d2) ->
  d1 = d2.
Proof.
  revert d2. induction d1 as [| [k1 v1] d1 IH]; intros [| [k2 v2] d2] H1 H2 Hext;
    trivial.
  - apply ascending_keys_cons in H2. destruct H2 as (Hk2 & _).
    specialize (Hext k2). simpl in Hext. rewrite feq_refl in Hext by trivial.
    discriminate.
  - apply ascending_keys_cons in H1. destruct H1 as (Hk1 & _).
    specialize (Hext k1). simpl in Hext. rewrite feq_refl in Hext by trivial.
    discriminate.
  - pose proof H1 as H1'. pose proof H2 as H2'.
    apply ascending_keys_cons in H1. destruct H1 as (Hk1 & Hall1 & Hasc1).
    apply ascending_keys_cons in H2. destruct H2 as (Hk2 & Hall2 & Hasc2).
    assert (Hhead : (k1, v1) = (k2, v2)).
    { pose proof (Hext k1) as E1. pose proof (Hext k2) as E2.
      simpl in E1, E2.
      rewrite (feq_refl k1 Hk1) in E1. rewrite (feq_refl k2 Hk2) in E2.
      destruct (feq k2 k1) eqn:E21; [congruence |].
      destruct (feq k1 k2) eqn:E12; [congruence |].
      symmetry in E1. apply find_item_some in E1. apply find_item_some in E2.
      destruct E1 as (In1 & _), E2 as (In2 & _).
      rewrite Forall_forall in Hall1, Hall2.
      assert (L12 : flt k1 k2 = true) by (apply Hall1; now apply (in_map fst) in In2).
      assert (L21 : flt k2 k1 = true) by (apply Hall2; now apply (in_map fst) in In1).
      apply flt_asym in L12. congruence. }
    injection Hhead as <- <-. f_equal.
    apply IH; trivial. intros key. specialize (Hext key). simpl in Hext.
    destruct (feq k1 key) eqn:E; trivial.
    rewrite (find_item_above _ key k1 d1 Hall1 E).
    now rewrite (find_item_above _ key k1 d2 Hall2 E).
Qed.

End SortedDictLookup.

(** ** Invariants of [Levels] *)

Section LevelsFacts.

Import LevelsInv.
Implicit Types (self : Levels.t) (level : PriceLevel.t).

Lemma merge_cons level lvls self :
  Levels.merge (level :: lvls) self = Levels.merge lvls (Levels.merge_level self level).
Proof. reflexivity. Qed.

Lemma merges_cons lvls batches self :
  merges (lvls :: batches) self = merges batches (Levels.merge lvls self).
Proof. reflexivity. Qed.

Lemma sorted_merge_level self level :
  isnan (PriceLevel.price level) = false ->
  sorted self = true -> sorted (Levels.merge_level self level) = true.
Proof.
  intros Hnan Hs. unfold sorted, Levels.merge_level in *.
  destruct (feq (PriceLevel.quantity level) zero); simpl.
  - now apply ascending_pop.
  - now apply ascending_setitem.
Qed.

Lemma sorted_merge lvls self :
  ordered_prices lvls = true ->
  sorted self = true -> sorted (Levels.merge lvls self) = true.
Proof.
  revert self. induction lvls as [| level lvls IH]; intros self; trivial.
  unfold ordered_prices. simpl forallb.
  rewrite andb_true_iff, negb_true_iff. intros (Hnan & Hord) Hs.
  rewrite merge_cons. apply IH; trivial. now apply sorted_merge_level.
Qed.

Lemma sorted_merges batches self :
  forallb ordered_prices batches = true ->
  sorted self = true -> sorted (merges batches self) = true.
Proof.
  revert self. induction batches as [| lvls batches IH]; intros self; trivial.
  simpl forallb. rewrite andb_true_iff. intros (Hord & Hrest) Hs.
  rewrite merges_cons. apply IH; trivial. now apply sorted_merge.
Qed.




Lemma coherent_merge_level self level :
  isnan (PriceLevel.price level) = false ->
  coherent self = true -> coherent (Levels.merge_level self level) = true.
Proof.
  unfold coherent, Levels.merge_level. rewrite !forallb_forall. intros Hnan Hc e.
  destruct (feq (PriceLevel.quantity level) zero); simpl; intros Hin.
  - apply In_pop in Hin. auto.
  - apply In_setitem in Hin; trivial. destruct Hin as [(-> & Hk) | Hin]; auto.
    now rewrite feq_sym.
Qed.

Lemma coherent_merge lvls self :
  ordered_prices lvls = true ->
  coherent self = true -> coherent (Levels.merge lvls self) = true.
Proof.
  revert self. induction lvls as [| level lvls IH]; intros self; trivial.
  unfold ordered_prices. simpl forallb.
  rewrite andb_true_iff, negb_true_iff. intros (Hnan & Hord) Hc.
  rewrite merge_cons. apply IH; trivial. now apply coherent_merge_level.
Qed.

Lemma coherent_merges batches self :
  forallb ordered_prices batches = true ->
  coherent self = true -> coherent (merges batches self) = true.
Proof.
  revert self. induction batches as [| lvls batches IH]; intros self; trivial.
  simpl forallb. rewrite andb_true_iff. intros (Hord & Hrest) Hc.
  rewrite merges_cons. apply IH; trivial. now apply coherent_merge.
Qed.



(** C10, as the code has it.  In every state reached from the empty
    container by merges of
    levels with ordered (non-NaN) prices, each level is stored under a key
    equal to its price, the keys are strictly ascending, and two resident
    items compare by key exactly as their levels compare by price. *)
Theorem key_value_coherence (batches : list (list PriceLevel.t)) :
  forallb ordered_prices batches = true ->
  let self := merges batches Levels.init in
  (forall k v, In (k, v) (Levels.levels self) -> feq (PriceLevel.price v) k = true)
  /\ ascending (SortedDict.keys (Levels.levels self)) = true
  /\ (forall k1 v1 k2 v2,
        In (k1, v1) (Levels.levels self) -> In (k2, v2) (Levels.levels self) ->
        flt k1 k2 = flt (PriceLevel.price v1) (PriceLevel.price v2)).
Proof.
  intros Hord self.
  assert (Hc : forall k v, In (k, v) (Levels.levels self) ->
                           feq (PriceLevel.price v) k = true).
  { pose proof (coherent_merges batches Levels.init Hord eq_refl) as Hc.
    unfold coherent in Hc. rewrite forallb_forall in Hc.
    intros k v Hin. exact (Hc (k, v) Hin). }
  split; [exact Hc | split].
  - exact (sorted_merges batches Levels.init Hord eq_refl).
  - intros k1 v1 k2 v2 H1 H2.
    rewrite (feq_flt_l _ _ _ (Hc k1 v1 H1)), (feq_flt_r _ _ _ (Hc k2 v2 H2)).
    reflexivity.
Qed.

Lemma key_value_coherence_witness :
  feq (PriceLevel.price (Sample.level 3 1)) (Sample.fl 3) = true
  /\ ascending
       (SortedDict.keys
          (Levels.levels
             (merges [[Sample.level 1 5; Sample.level 2 6];
                      [Sample.level 2 0; Sample.level 3 1]] Levels.init))) = true.
Proof.
  destruct (key_value_coherence
              [[Sample.level 1 5; Sample.level 2 6];
               [Sample.level 2 0; Sample.level 3 1]] eq_refl) as (Hc & Hasc & _).
  split; [| exact Hasc].
  apply (Hc (Sample.fl 3) (Sample.level 3 1)). simpl. right. left. reflexivity.
Defined.

(** The equality of key and price is the one of [==]: a level priced
    [-0.0] that replaces a level priced [0.0] stays under the key [0.0]
    that the dict already holds. *)
Example signed_zero_key :
  Levels.levels
    (merges [[PriceLevel.Make (S754_zero false) (Sample.fl 1)];
             [PriceLevel.Make (S754_zero true) (Sample.fl 2)]] Levels.init)
  = [(S754_zero false, PriceLevel.Make (S754_zero true) (Sample.fl 2))].
Proof. reflexivity. Qed.

End LevelsFacts.

(** ** Indexing and slicing *)

Section Indexing.

Variable V : Type.
Implicit Types (d : SortedDict.t V) (k key : float) (v : V).

Lemma list_getitem_at (A : Type) (l : list A) (n : nat) (a : A) (index : Z) :
  nth_error l n = Some a ->
  index = Z.of_nat n \/ index = Z.of_nat n - Z.of_nat (List.length l) ->
  list_getitem l index = Return a.
Proof.
  intros Hn Hidx.
  assert (Hlt : (n < List.length l)%nat) by (apply nth_error_Some; congruence).
  unfold list_getitem. destruct Hidx as [-> | ->].
  - destruct (Z.ltb_spec (Z.of_nat n) 0); [lia |].
    destruct (Z.ltb_spec (Z.of_nat n) 0); [lia |].
    destruct (Z.leb_spec (Z.of_nat (List.length l)) (Z.of_nat n)); [lia |].
    simpl. now rewrite Nat2Z.id, Hn.
  - destruct (Z.ltb_spec (Z.of_nat n - Z.of_nat (List.length l)) 0); [| lia].
    replace (Z.of_nat n - Z.of_nat (List.length l) + Z.of_nat (List.length l))
      with (Z.of_nat n) by lia.
    destruct (Z.ltb_spec (Z.of_nat n) 0); [lia |].
    destruct (Z.leb_spec (Z.of_nat (List.length l)) (Z.of_nat n)); [lia |].
    simpl. now rewrite Nat2Z.id, Hn.
Qed.


Lemma getitem_sorted d k v :
  ascending (SortedDict.keys d) = true ->
  In (k, v) d -> SortedDict.getitem d k = Return v.
Proof.
  intros Hasc Hin. unfold SortedDict.getitem.
  rewrite (find_item_sorted _ d k v k Hasc Hin); trivial.
  apply feq_refl. apply (ascending_nonnan _ _ Hasc).
  now apply (in_map fst) in Hin.
Qed.

Lemma peekitem_at d (n : nat) k v (index : Z) :
  ascending (SortedDict.keys d) = true ->
  nth_error d n = Some (k, v) ->
  index = Z.of_nat n \/ index = Z.of_nat n - SortedDict.len d ->
  SortedDict.peekitem index d = Return (k, v).
Proof.
  intros Hasc Hn Hidx. unfold SortedDict.peekitem.
  rewrite (list_getitem_at _ (SortedDict.keys d) n k index).
  - simpl. rewrite (getitem_sorted d k v Hasc); trivial.
    eapply nth_error_In; eassumption.
  - unfold SortedDict.keys. now rewrite nth_error_map, Hn.
  - unfold SortedDict.keys. now rewrite length_map.
Qed.


Lemma filter_all (A : Type) (f : A -> bool) (l : list A) :
  (forall x, In x l -> f x = true) -> filter f l = l.
Proof.
  induction l as [| a l IH]; simpl; trivial. intros H.
  rewrite (H a) by auto. f_equal. apply IH. auto.
Qed.

Lemma filter_none (A : Type) (f : A -> bool) (l : list A) :
  (forall x, In x l -> f x = false) -> filter f l = [].
Proof.
  induction l as [| a l IH]; simpl; trivial. intros H.
  rewrite (H a) by auto. apply IH. auto.
Qed.


Lemma nth_error_lt (A : Type) (l : list A) (n : nat) :
  (n < List.length l)%nat -> exists a, nth_error l n = Some a.
Proof.
  intros H. destruct (nth_error l n) eqn:E; [eauto |].
  apply nth_error_None in E. lia.
Qed.

End Indexing.

(** ** Single-level accessors *)

Section NthLevel.

Import LevelsInv.

Lemma max_at (self : Levels.t) (n : nat) (k : float) (v : PriceLevel.t) (i : Z) :
  sorted self = true ->
  nth_error (Levels.levels self) n = Some (k, v) ->
  - i = Z.of_nat n \/ - i = Z.of_nat n - Levels.len self ->
  Levels.max i self = Return v.
Proof.
  intros Hs Hn Hi. unfold Levels.max.
  now rewrite (peekitem_at _ (Levels.levels self) n k v (- i) Hs Hn Hi).
Qed.

Lemma min_at (self : Levels.t) (n : nat) (k : float) (v : PriceLevel.t) (i : Z) :
  sorted self = true ->
  nth_error (Levels.levels self) n = Some (k, v) ->
  i - 1 = Z.of_nat n \/ i - 1 = Z.of_nat n - Levels.len self ->
  Levels.min i self = Return v.
Proof.
  intros Hs Hn Hi. unfold Levels.min.
  now rewrite (peekitem_at _ (Levels.levels self) n k v (i - 1) Hs Hn Hi).
Qed.




End NthLevel.

(** ** Ranked slices *)

Section Slices.

Variable V : Type.
Implicit Types (d : SortedDict.t V) (k key : float) (v : V).
Implicit Types (start stop : option Z) (reverse : bool).

Lemma islice_items start stop reverse d :
  SortedDict.islice start stop reverse d = map fst (slice_items start stop reverse d).
Proof.
  unfold SortedDict.islice, slice_items, SortedDict.keys.
  destruct (SortedDict.len d =? 0); trivial.
  destruct (slice_index (SortedDict.len d) start 0
            >=? slice_index (SortedDict.len d) stop (SortedDict.len d)); trivial.
  rewrite skipn_map, firstn_map.
  destruct reverse; trivial. now rewrite map_rev.
Qed.

Lemma In_firstn (A : Type) (n : nat) (l : list A) (x : A) :
  In x (firstn n l) -> In x l.
Proof.
  intros H. rewrite <- (firstn_skipn n l). apply in_or_app. auto.
Qed.

Lemma In_skipn (A : Type) (n : nat) (l : list A) (x : A) :
  In x (skipn n l) -> In x l.
Proof.
  intros H. rewrite <- (firstn_skipn n l). apply in_or_app. auto.
Qed.

Lemma slice_items_In start stop reverse d e :
  In e (slice_items start stop reverse d) -> In e d.
Proof.
  unfold slice_items.
  destruct (SortedDict.len d =? 0); [intros [] |].
  destruct (_ >=? _); [intros [] |].
  intros H. assert (H' : In e (firstn (Z.to_nat
      (slice_index (SortedDict.len d) stop (SortedDict.len d)
       - slice_index (SortedDict.len d) start 0))
      (skipn (Z.to_nat (slice_index (SortedDict.len d) start 0)) d))).
  { destruct reverse; [now apply in_rev |trivial]. }
  eapply In_skipn, In_firstn. eassumption.
Qed.

Lemma slice_items_order start stop reverse d :
  ascending (SortedDict.keys d) = true ->
  (if reverse then descending else ascending)
    (map fst (slice_items start stop reverse d)) = true.
Proof.
  intros Hasc. unfold slice_items.
  destruct (SortedDict.len d =? 0); [now destruct reverse |].
  destruct (_ >=? _); [now destruct reverse |].
  assert (H : ascending (map fst (firstn (Z.to_nat
      (slice_index (SortedDict.len d) stop (SortedDict.len d)
       - slice_index (SortedDict.len d) start 0))
      (skipn (Z.to_nat (slice_index (SortedDict.len d) start 0)) d))) = true).
  { rewrite <- firstn_map, <- skipn_map.
    now apply ascending_firstn, ascending_skipn. }
  destruct reverse; trivial.
  rewrite map_rev. now apply ascending_rev.
Qed.

Lemma for_each_getitem d (l : list (float * V)) :
  ascending (SortedDict.keys d) = true ->
  (forall e, In e l -> In e d) ->
  for_each (SortedDict.getitem d) (map fst l) = Return (map snd l).
Proof.
  intros Hasc. induction l as [| [k v] l IH]; intros Hin; trivial.
  simpl. rewrite (getitem_sorted _ d k v Hasc) by (apply Hin; simpl; auto).
  simpl. rewrite IH by (intros e He; apply Hin; simpl; auto).
  reflexivity.
Qed.

Lemma len_zero d : SortedDict.len d = 0 -> d = [].
Proof. destruct d; [trivial | discriminate]. Qed.

(** A request for more items than are resident is truncated to all. *)
Lemma slice_items_top_all d (n : Z) reverse :
  SortedDict.len d < n ->
  slice_items (Some (- n)) None reverse d = if reverse then rev d else d.
Proof.
  intros Hn. unfold slice_items.
  destruct (Z.eqb_spec (SortedDict.len d) 0) as [H0 | H0].
  - apply len_zero in H0. subst d. now destruct reverse.
  - assert (Hpos : 0 < SortedDict.len d) by (unfold SortedDict.len in *; lia).
    unfold slice_index.
    destruct (Z.ltb_spec (- n) 0); [| lia].
    rewrite Z.max_r by lia.
    destruct (Z.geb_spec 0 (SortedDict.len d)); [lia |].
    rewrite Z.sub_0_r. unfold SortedDict.len. rewrite Nat2Z.id. simpl skipn.
    now rewrite firstn_all.
Qed.

Lemma slice_items_bottom_all d (n : Z) reverse :
  SortedDict.len d < n ->
  slice_items None (Some n) reverse d = if reverse then rev d else d.
Proof.
  intros Hn. unfold slice_items.
  destruct (Z.eqb_spec (SortedDict.len d) 0) as [H0 | H0].
  - apply len_zero in H0. subst d. now destruct reverse.
  - assert (Hpos : 0 < SortedDict.len d) by (unfold SortedDict.len in *; lia).
    unfold slice_index.
    destruct (Z.ltb_spec n 0); [lia |].
    rewrite Z.min_r by lia.
    destruct (Z.geb_spec 0 (SortedDict.len d)); [lia |].
    rewrite Z.sub_0_r. unfold SortedDict.len. rewrite Nat2Z.id. simpl skipn.
    now rewrite firstn_all.
Qed.

(** A request for [n] items, [1 <= n <= len], yields [n] of them. *)
Lemma slice_items_top_length d (n : Z) reverse :
  1 <= n <= SortedDict.len d ->
  Z.of_nat (List.length (slice_items (Some (- n)) None reverse d)) = n.
Proof.
  intros Hn. unfold slice_items.
  destruct (Z.eqb_spec (SortedDict.len d) 0) as [H0 | H0]; [lia |].
  unfold slice_index.
  destruct (Z.ltb_spec (- n) 0); [| lia].
  rewrite Z.max_l by lia.
  destruct (Z.geb_spec (- n + SortedDict.len d) (SortedDict.len d)); [lia |].
  assert (Hlen : List.length (firstn (Z.to_nat (SortedDict.len d - (- n + SortedDict.len d)))
                    (skipn (Z.to_nat (- n + SortedDict.len d)) d)) = Z.to_nat n).
  { rewrite length_firstn, length_skipn. unfold SortedDict.len in *. lia. }
  destruct reverse; [rewrite length_rev |]; rewrite Hlen; lia.
Qed.

Lemma slice_items_bottom_length d (n : Z) reverse :
  1 <= n <= SortedDict.len d ->
  Z.of_nat (List.length (slice_items None (Some n) reverse d)) = n.
Proof.
  intros Hn. unfold slice_items.
  destruct (Z.eqb_spec (SortedDict.len d) 0) as [H0 | H0]; [lia |].
  unfold slice_index.
  destruct (Z.ltb_spec n 0); [lia |].
  rewrite Z.min_l by lia.
  destruct (Z.geb_spec 0 n); [lia |].
  assert (Hlen : List.length (firstn (Z.to_nat (n - 0)) (skipn (Z.to_nat 0) d))
                 = Z.to_nat n).
  { rewrite length_firstn, length_skipn. unfold SortedDict.len in *. lia. }
  destruct reverse; [rewrite length_rev |]; rewrite Hlen; lia.
Qed.

End Slices.

(** ** Best prices of a book *)

Section BestPrices.

Import BinanceOrderBook.

Lemma max_slice_items (self : Levels.t) (i : Z) (reverse : bool) :
  LevelsInv.sorted self = true ->
  Levels.max_slice i reverse self =
  Return (map snd (slice_items (Some (- i)) None reverse (Levels.levels self))).
Proof.
  intros Hs. unfold Levels.max_slice. rewrite islice_items.
  apply for_each_getitem; trivial. intros e. apply slice_items_In.
Qed.

Lemma min_slice_items (self : Levels.t) (i : Z) (reverse : bool) :
  LevelsInv.sorted self = true ->
  Levels.min_slice i reverse self =
  Return (map snd (slice_items None (Some i) reverse (Levels.levels self))).
Proof.
  intros Hs. unfold Levels.min_slice. rewrite islice_items.
  apply for_each_getitem; trivial. intros e. apply slice_items_In.
Qed.

(** The prices of coherent items are equal to their keys, one by one. *)
Lemma prices_feq_keys (self : Levels.t) (l : list (float * PriceLevel.t)) :
  LevelsInv.coherent self = true ->
  (forall e, In e l -> In e (Levels.levels self)) ->
  Forall2 (fun a b => feq a b = true)
          (map PriceLevel.price (map snd l)) (map fst l).
Proof.
  unfold LevelsInv.coherent. rewrite forallb_forall. intros Hc.
  induction l as [| e l IH]; intros Hin; simpl; constructor.
  - apply Hc, Hin. simpl. auto.
  - apply IH. intros e' He'. apply Hin. simpl. auto.
Qed.

Lemma book_init_inv (s : Snapshot.t) :
  BookInv.ordered_snapshot s = true ->
  BookInv.sorted (init s) = true /\ BookInv.coherent (init s) = true.
Proof.
  unfold BookInv.ordered_snapshot, BookInv.sorted, BookInv.coherent, init.
  rewrite !andb_true_iff. intros (Hb & Ha). simpl.
  repeat split;
    (apply sorted_merge || apply coherent_merge); trivial.
Qed.

Lemma book_update_inv (u : PartialUpdate.t) (self : t) :
  BookInv.ordered_update u = true ->
  BookInv.sorted self = true /\ BookInv.coherent self = true ->
  BookInv.sorted (snd (update u self)) = true
  /\ BookInv.coherent (snd (update u self)) = true.
Proof.
  intros Hord Hinv.
  destruct (update_cases u self) as [(_ & ->) | [(_ & _ & ->) | (_ & _ & ->)]];
    trivial.
  revert Hord Hinv.
  unfold BookInv.ordered_update, BookInv.sorted, BookInv.coherent.
  rewrite !andb_true_iff. intros (Hb & Ha) ((Hsb & Hsa) & (Hcb & Hca)). simpl.
  repeat split; (apply sorted_merge || apply coherent_merge); trivial.
Qed.

Lemma book_feed_inv (us : list PartialUpdate.t) (self : t) :
  forallb BookInv.ordered_update us = true ->
  BookInv.sorted self = true /\ BookInv.coherent self = true ->
  BookInv.sorted (feed us self) = true /\ BookInv.coherent (feed us self) = true.
Proof.
  revert self. induction us as [| u us IH]; intros self; trivial.
  simpl forallb. rewrite andb_true_iff. intros (Hu & Hus) Hinv.
  apply (IH (snd (update u self))); trivial. now apply book_update_inv.
Qed.

Lemma book_reachable_inv (s : Snapshot.t) (us : list PartialUpdate.t) :
  BookInv.ordered_snapshot s = true ->
  forallb BookInv.ordered_update us = true ->
  BookInv.sorted (feed us (init s)) = true
  /\ BookInv.coherent (feed us (init s)) = true.
Proof.
  intros Hs Hus. apply book_feed_inv; trivial. now apply book_init_inv.
Qed.

(** On the container in order: for the book built from a snapshot and fed
    any sequence of updates, prices not NaN, the slices come out in strict
    price order, and with [n] levels for [n] between 1 and the resident
    count. *)
Lemma ordered_best_prices (s : Snapshot.t) (us : list PartialUpdate.t) (n : Z) :
  BookInv.ordered_snapshot s = true ->
  forallb BookInv.ordered_update us = true ->
  let book := feed us (init s) in
  exists lb la,
    best_bids n book = Return lb
    /\ descending (map PriceLevel.price lb) = true
    /\ (1 <= n <= Levels.len (bids book) -> Z.of_nat (List.length lb) = n)
    /\ best_asks n book = Return la
    /\ ascending (map PriceLevel.price la) = true
    /\ (1 <= n <= Levels.len (asks book) -> Z.of_nat (List.length la) = n).
Proof.
  intros Hs Hus book.
  destruct (book_reachable_inv s us Hs Hus) as (Hsorted & Hcoh). fold book in Hsorted, Hcoh.
  unfold BookInv.sorted, BookInv.coherent in Hsorted, Hcoh.
  apply andb_true_iff in Hsorted. destruct Hsorted as (Hsb & Hsa).
  apply andb_true_iff in Hcoh. destruct Hcoh as (Hcb & Hca).
  exists (map snd (slice_items (Some (- n)) None true (Levels.levels (bids book)))),
         (map snd (slice_items None (Some n) false (Levels.levels (asks book)))).
  repeat split.
  - unfold best_bids. now apply max_slice_items.
  - eapply descending_feq.
    + apply (prices_feq_keys (bids book)); trivial. intros e. apply slice_items_In.
    + apply (slice_items_order _ (Some (- n)) None true). exact Hsb.
  - intros Hn. rewrite length_map. now apply slice_items_top_length.
  - unfold best_asks. now apply min_slice_items.
  - eapply ascending_feq.
    + apply (prices_feq_keys (asks book)); trivial. intros e. apply slice_items_In.
    + apply (slice_items_order _ None (Some n) false). exact Hsa.
  - intros Hn. rewrite length_map. now apply slice_items_bottom_length.
Qed.

(** C6. For the book built from a snapshot and fed any sequence of updates
    (prices not NaN), a request for more levels than a side holds yields
    all the resident levels of that side, best first, and raises nothing:
    [best_bids(n)] every bid level from the highest price down,
    [best_asks(n)] every ask level from the lowest price up. *)
Theorem best_slices_truncate (s : Snapshot.t) (us : list PartialUpdate.t) (n : Z) :
  BookInv.ordered_snapshot s = true ->
  forallb BookInv.ordered_update us = true ->
  let book := feed us (init s) in
  (Levels.len (bids book) < n ->
   best_bids n book = Return (rev (map snd (Levels.levels (bids book)))))
  /\ (Levels.len (asks book) < n ->
      best_asks n book = Return (map snd (Levels.levels (asks book)))).
Proof.
  intros Hs Hus book.
  destruct (book_reachable_inv s us Hs Hus) as (Hsorted & _). fold book in Hsorted.
  unfold BookInv.sorted in Hsorted.
  apply andb_true_iff in Hsorted. destruct Hsorted as (Hsb & Hsa).
  split; intros Hn.
  - unfold best_bids. rewrite max_slice_items by trivial.
    rewrite slice_items_top_all by exact Hn. now rewrite map_rev.
  - unfold best_asks. rewrite min_slice_items by trivial.
    now rewrite slice_items_bottom_all by exact Hn.
Qed.

(** Ten resident bid levels, fifty requested: exactly the ten come back. *)
Lemma best_slices_truncate_witness :
  Levels.len (bids Sample.book) = 10
  /\ best_bids 50 Sample.book = Return (rev Sample.ten_levels)
  /\ best_asks 50 Sample.book = Return [Sample.level 11 2; Sample.level 12 3].
Proof.
  destruct (best_slices_truncate Sample.snapshot [] 50 eq_refl eq_refl) as (Hb & Ha).
  split; [reflexivity | split].
  - apply Hb. reflexivity.
  - apply Ha. reflexivity.
Defined.

End BestPrices.

(** ** Idempotence of [merge] *)

Section Idempotence.

Import LevelsInv.

Lemma find_item_merge_level (self : Levels.t) (level : PriceLevel.t) (key : float) :
  sorted self = true ->
  SortedDict.find_item key (Levels.levels (Levels.merge_level self level)) =
  merge_effect key (SortedDict.find_item key (Levels.levels self)) level.
Proof.
  intros Hs. unfold Levels.merge_level, merge_effect.
  destruct (feq (PriceLevel.quantity level) zero); simpl.
  - now rewrite find_item_pop.
  - now rewrite find_item_setitem.
Qed.

Lemma find_item_merge (lvls : list PriceLevel.t) (self : Levels.t) (key : float) :
  ordered_prices lvls = true ->
  sorted self = true ->
  SortedDict.find_item key (Levels.levels (Levels.merge lvls self)) =
  fold_left (merge_effect key) lvls (SortedDict.find_item key (Levels.levels self)).
Proof.
  revert self. induction lvls as [| level lvls IH]; intros self; trivial.
  unfold ordered_prices. simpl forallb.
  rewrite andb_true_iff, negb_true_iff. intros (Hnan & Hord) Hs.
  rewrite merge_cons, IH; trivial.
  - simpl. now rewrite find_item_merge_level.
  - now apply sorted_merge_level.
Qed.

Lemma band_compose f (key : float) (level : PriceLevel.t) :
  band f -> band (fun r => f (merge_effect key r level)).
Proof.
  unfold merge_effect.
  intros [Hid | [(c & Hc) | (k & v & Hset)]].
  - destruct (feq (PriceLevel.price level) key).
    + destruct (feq (PriceLevel.quantity level) zero).
      * right; left. exists None. intros r. apply Hid.
      * right; right. exists (PriceLevel.price level), level. intros r. apply Hid.
    + left. intros r. apply Hid.
  - right; left. exists c. intros r. apply Hc.
  - destruct (feq (PriceLevel.price level) key).
    + destruct (feq (PriceLevel.quantity level) zero).
      * right; left. exists (Some (k, v)). intros r. now rewrite Hset.
      * right; right. exists (PriceLevel.price level), v. intros r. now rewrite Hset.
    + right; right. exists k, v. intros r. apply Hset.
Qed.

Lemma band_fold (key : float) (lvls : list PriceLevel.t) :
  band (fun r => fold_left (merge_effect key) lvls r).
Proof.
  induction lvls as [| level lvls IH].
  - left. reflexivity.
  - simpl. apply (band_compose _ key level IH).
Qed.

Lemma band_idempotent f : band f -> forall r, f (f r) = f r.
Proof.
  intros [Hid | [(c & Hc) | (k & v & Hset)]] r.
  - now rewrite !Hid.
  - now rewrite !Hc.
  - now rewrite !Hset.
Qed.

Lemma levels_eq (a b : Levels.t) : Levels.levels a = Levels.levels b -> a = b.
Proof. destruct a, b. simpl. now intros ->. Qed.

Lemma merge_twice (lvls : list PriceLevel.t) (self : Levels.t) :
  sorted self = true ->
  ordered_prices lvls = true ->
  Levels.merge lvls (Levels.merge lvls self) = Levels.merge lvls self.
Proof.
  intros Hs Hord.
  pose proof (sorted_merge lvls self Hord Hs) as Hs1.
  pose proof (sorted_merge lvls _ Hord Hs1) as Hs2.
  apply levels_eq. apply sorted_ext; trivial.
  intros key. rewrite (find_item_merge lvls _ key Hord Hs1).
  rewrite (find_item_merge lvls self key Hord Hs).
  apply (band_idempotent _ (band_fold key lvls)).
Qed.

(** C9, as the code has it.  Merging a list of levels (prices not NaN) twice in a row leaves the
    container exactly as one merge does.  Hence an update that the book has
    just applied, applied again, returns [True] once more - its
    [last_update_id] is the book's own - and leaves the book, both sides
    and [last_update_id], exactly as it was. *)
Theorem merge_idempotent :
  (forall self lvls,
      sorted self = true ->
      ordered_prices lvls = true ->
      Levels.merge lvls (Levels.merge lvls self) = Levels.merge lvls self)
  /\ (forall book u,
        BookInv.sorted book = true ->
        BookInv.ordered_update u = true ->
        fst (BinanceOrderBook.update u book) = Return true ->
        let book' := snd (BinanceOrderBook.update u book) in
        PartialUpdate.last_update_id u = BinanceOrderBook.last_update_id book'
        /\ BinanceOrderBook.update u book' = (Return true, book')).
Proof.
  split.
  - intros self lvls. apply merge_twice.
  - intros book u Hsorted Hord.
    destruct (update_cases u book) as [(_ & ->) | [(_ & _ & ->) | (Hlast & Hfirst & ->)]];
      simpl; try discriminate.
    intros _. split; trivial.
    unfold BinanceOrderBook.update. simpl.
    rewrite Z.ltb_irrefl.
    destruct (Z.gtb_spec (PartialUpdate.first_update_id u)
                         (PartialUpdate.last_update_id u + 1)); [lia |].
    unfold BookInv.sorted in Hsorted. unfold BookInv.ordered_update in Hord.
    apply andb_true_iff in Hsorted, Hord.
    destruct Hsorted as (Hsb & Hsa), Hord as (Hob & Hoa).
    now rewrite !merge_twice.
Qed.

Lemma merge_idempotent_witness :
  Levels.merge [Sample.level 1 0; Sample.level 3 7]
    (Levels.merge [Sample.level 1 0; Sample.level 3 7] Sample.two)
  = Levels.merge [Sample.level 1 0; Sample.level 3 7] Sample.two
  /\ BinanceOrderBook.update Sample.contiguous
       (snd (BinanceOrderBook.update Sample.contiguous Sample.book))
     = (Return true, snd (BinanceOrderBook.update Sample.contiguous Sample.book)).
Proof.
  destruct merge_idempotent as (Hmerge & Hupdate).
  split.
  - apply (Hmerge Sample.two [Sample.level 1 0; Sample.level 3 7]); reflexivity.
  - apply (Hupdate Sample.book Sample.contiguous); reflexivity.
Defined.

End Idempotence.

(** ** Records from wire objects *)

Section WireFacts.

Variable float_of_str : string -> option float.

Local Abbreviation level_from_object := (PriceLevel.from_object float_of_str).
Local Abbreviation update_from_object := (Wire.PartialUpdate_from_object float_of_str).
Local Abbreviation snapshot_from_object := (Wire.Snapshot_from_object float_of_str).

Lemma level_from_list (l : PriceLevel.t) :
  level_from_object (Wire.level_as_list l) = Return l.
Proof. destruct l. reflexivity. Qed.

Lemma level_from_dict (l : PriceLevel.t) :
  level_from_object (Wire.level_as_dict l) = Return l.
Proof. destruct l. reflexivity. Qed.

Lemma levels_from_shape (shape : PriceLevel.t -> pyobj) (lvls : list PriceLevel.t) :
  (forall l, level_from_object (shape l) = Return l) ->
  Wire.levels_from float_of_str (map shape lvls) = Built lvls.
Proof.
  intros Hshape. unfold Wire.levels_from.
  assert (H : for_each level_from_object (map shape lvls) = Return lvls).
  { induction lvls as [| l lvls IH]; trivial.
    simpl. rewrite Hshape. simpl. now rewrite IH. }
  now rewrite H.
Qed.

Lemma update_from_message (shape : PriceLevel.t -> pyobj) (u : PartialUpdate.t) :
  (forall l, level_from_object (shape l) = Return l) ->
  update_from_object (Wire.update_message shape u) = Built u.
Proof.
  intros Hshape. destruct u as [bids asks first last].
  unfold Wire.PartialUpdate_from_object, Wire.update_message. simpl.
  now rewrite !levels_from_shape.
Qed.

Lemma snapshot_from_message (shape : PriceLevel.t -> pyobj) (s : Snapshot.t) :
  (forall l, level_from_object (shape l) = Return l) ->
  snapshot_from_object (Wire.snapshot_message shape s) = Built s.
Proof.
  intros Hshape. destruct s as [bids asks last].
  unfold Wire.Snapshot_from_object, Wire.snapshot_message. simpl.
  now rewrite !levels_from_shape.
Qed.

(** X1. A depth-update message and a snapshot message that carry a record,
    with the levels written as two-element lists or as price/qty dicts, are
    constructed back into exactly that record. *)
Theorem from_object_round_trip (u : PartialUpdate.t) (s : Snapshot.t) :
  update_from_object (Wire.update_message Wire.level_as_list u) = Built u
  /\ update_from_object (Wire.update_message Wire.level_as_dict u) = Built u
  /\ snapshot_from_object (Wire.snapshot_message Wire.level_as_list s) = Built s
  /\ snapshot_from_object (Wire.snapshot_message Wire.level_as_dict s) = Built s.
Proof.
  repeat split.
  - apply update_from_message, level_from_list.
  - apply update_from_message, level_from_dict.
  - apply snapshot_from_message, level_from_list.
  - apply snapshot_from_message, level_from_dict.
Qed.

Lemma dict_getitem_cases (d : list (string * pyobj)) (key : string) :
  dict_getitem d key = Raise KeyError \/ exists v, dict_getitem d key = Return v.
Proof.
  induction d as [| [k v] d IH]; simpl; auto.
  destruct (String.eqb k key); eauto.
Qed.

(** X2. The four fields of an update ([b], [a], [U], [u]) and the three of a
    snapshot are read before anything is checked: an object that is not a
    dict raises [TypeError], and a dict that lacks one of the fields raises
    [KeyError], whatever the other fields hold. *)
Theorem from_object_missing_field (obj : pyobj) :
  ((forall d, obj <> PyDict d) ->
   update_from_object obj = Failed TypeError
   /\ snapshot_from_object obj = Failed TypeError)
  /\ (forall d,
        obj = PyDict d ->
        (dict_getitem d "b" = Raise KeyError \/ dict_getitem d "a" = Raise KeyError
         \/ dict_getitem d "U" = Raise KeyError \/ dict_getitem d "u" = Raise KeyError ->
         update_from_object obj = Failed KeyError)
        /\ (dict_getitem d "bids" = Raise KeyError
            \/ dict_getitem d "asks" = Raise KeyError
            \/ dict_getitem d "lastUpdateId" = Raise KeyError ->
            snapshot_from_object obj = Failed KeyError)).
Proof.
  split.
  - intros Hd. destruct obj; try (split; reflexivity). now elim (Hd d).
  - intros d ->. unfold Wire.PartialUpdate_from_object, Wire.Snapshot_from_object.
    simpl py_getitem. split.
    + intros H.
      destruct (dict_getitem_cases d "b") as [Eb | (vb & Eb)]; [now rewrite Eb |].
      destruct (dict_getitem_cases d "a") as [Ea | (va & Ea)]; [now rewrite Eb, Ea |].
      destruct (dict_getitem_cases d "U") as [EU | (vU & EU)]; [now rewrite Eb, Ea, EU |].
      destruct (dict_getitem_cases d "u") as [Eu | (vu & Eu)]; [now rewrite Eb, Ea, EU, Eu |].
      destruct H as [H | [H | [H | H]]]; congruence.
    + intros H.
      destruct (dict_getitem_cases d "bids") as [Eb | (vb & Eb)]; [now rewrite Eb |].
      destruct (dict_getitem_cases d "asks") as [Ea | (va & Ea)]; [now rewrite Eb, Ea |].
      destruct (dict_getitem_cases d "lastUpdateId") as [El | (vl & El)];
        [now rewrite Eb, Ea, El |].
      destruct H as [H | [H | H]]; congruence.
Qed.

End WireFacts.

Lemma from_object_missing_field_witness :
  Wire.PartialUpdate_from_object (fun _ => None) (PyList []) = Failed TypeError
  /\ Wire.PartialUpdate_from_object (fun _ => None)
       (PyDict [("b"%string, PyNone); ("a"%string, PyList []); ("U"%string, PyInt 1)])
     = Failed KeyError
  /\ Wire.Snapshot_from_object (fun _ => None)
       (PyDict [("bids"%string, PyList []); ("lastUpdateId"%string, PyStr "7")])
     = Failed KeyError.
Proof.
  split; [| split].
  - destruct (from_object_missing_field (fun _ => None) (PyList [])) as (H & _).
    apply H. intros; discriminate.
  - destruct (from_object_missing_field (fun _ => None)
                (PyDict [("b"%string, PyNone); ("a"%string, PyList []); ("U"%string, PyInt 1)]))
      as (_ & H).
    destruct (H _ eq_refl) as (Hu & _). apply Hu.
    right; right; right. reflexivity.
  - destruct (from_object_missing_field (fun _ => None)
                (PyDict [("bids"%string, PyList []); ("lastUpdateId"%string, PyStr "7")]))
      as (_ & H).
    destruct (H _ eq_refl) as (_ & Hs). apply Hs.
    right; left. reflexivity.
Defined.

Section WireChecks.

Variable float_of_str : string -> option float.

Local Abbreviation level_from_object := (PriceLevel.from_object float_of_str).
Local Abbreviation update_from_object := (Wire.PartialUpdate_from_object float_of_str).
Local Abbreviation snapshot_from_object := (Wire.Snapshot_from_object float_of_str).

(** X3. With all fields present, the [assert]s come before any level is
    looked at: a [b] or [a] (a [bids] or [asks]) that is not a list, or an
    id that is not exactly an [int] - a [bool] or a [float] is not - fails
    with [AssertionError], whatever the levels are. *)
Theorem from_object_asserts (d : list (string * pyobj)) :
  (forall vb va vU vu,
      dict_getitem d "b" = Return vb -> dict_getitem d "a" = Return va ->
      dict_getitem d "U" = Return vU -> dict_getitem d "u" = Return vu ->
      (forall l, vb <> PyList l) \/ (forall l, va <> PyList l)
      \/ (forall z, vU <> PyInt z) \/ (forall z, vu <> PyInt z) ->
      update_from_object (PyDict d) = AssertionError)
  /\ (forall vb va vl,
        dict_getitem d "bids" = Return vb -> dict_getitem d "asks" = Return va ->
        dict_getitem d "lastUpdateId" = Return vl ->
        (forall l, vb <> PyList l) \/ (forall l, va <> PyList l)
        \/ (forall z, vl <> PyInt z) ->
        snapshot_from_object (PyDict d) = AssertionError).
Proof.
  split.
  - intros vb va vU vu Eb Ea EU Eu H.
    unfold Wire.PartialUpdate_from_object. simpl py_getitem.
    rewrite Eb, Ea, EU, Eu. simpl.
    destruct vb; trivial. destruct va; trivial.
    destruct vU; trivial. destruct vu; trivial.
    exfalso. destruct H as [H | [H | [H | H]]]; eapply H; reflexivity.
  - intros vb va vl Eb Ea El H.
    unfold Wire.Snapshot_from_object. simpl py_getitem.
    rewrite Eb, Ea, El. simpl.
    destruct vb; trivial. destruct va; trivial. destruct vl; trivial.
    exfalso. destruct H as [H | [H | H]]; eapply H; reflexivity.
Qed.

Lemma for_each_abort (A B : Type) (f : A -> outcome B)
  (good : list A) (bad : A) (rest : list A) (ys : list B) (e : exn) :
  for_each f good = Return ys -> f bad = Raise e ->
  for_each f (good ++ bad :: rest) = Raise e.
Proof.
  revert ys. induction good as [| x good IH]; intros ys; simpl.
  - intros _ ->. reflexivity.
  - destruct (f x) as [y | e']; simpl; [| discriminate].
    destruct (for_each f good) as [ys' | e'] eqn:E; simpl; [| discriminate].
    intros _ Hbad. now rewrite (IH ys' eq_refl Hbad).
Qed.

(** X4. No partial record: when the fields have the right shapes and a level
    fails to construct, the update is not built and the exception of the
    first such level comes out - of the first bad bid, or, when all bids are
    fine, of the first bad ask. *)
Theorem update_from_object_bad_level (d : list (string * pyobj))
  (bids asks : list pyobj) (first last : Z)
  (good : list pyobj) (bad : pyobj) (rest : list pyobj)
  (lvls : list PriceLevel.t) (e : exn) :
  dict_getitem d "b" = Return (PyList bids) ->
  dict_getitem d "a" = Return (PyList asks) ->
  dict_getitem d "U" = Return (PyInt first) ->
  dict_getitem d "u" = Return (PyInt last) ->
  for_each level_from_object good = Return lvls ->
  level_from_object bad = Raise e ->
  (bids = good ++ bad :: rest -> update_from_object (PyDict d) = Failed e)
  /\ (forall ok, for_each level_from_object bids = Return ok ->
                 asks = good ++ bad :: rest ->
                 update_from_object (PyDict d) = Failed e).
Proof.
  intros Eb Ea EU Eu Hgood Hbad.
  unfold Wire.PartialUpdate_from_object, Wire.levels_from. simpl py_getitem.
  rewrite Eb, Ea, EU, Eu. simpl. split.
  - intros ->. now rewrite (for_each_abort _ _ _ good bad rest lvls e Hgood Hbad).
  - intros ok Hok ->. rewrite Hok. simpl.
    now rewrite (for_each_abort _ _ _ good bad rest lvls e Hgood Hbad).
Qed.

End WireChecks.

Lemma from_object_asserts_witness :
  Wire.PartialUpdate_from_object (fun _ => None)
    (PyDict [("b"%string, PyList [PyNone]); ("a"%string, PyList []);
             ("U"%string, PyBool true); ("u"%string, PyInt 2)])
  = AssertionError
  /\ Wire.Snapshot_from_object (fun _ => None)
       (PyDict [("bids"%string, PyTuple []); ("asks"%string, PyList []);
                ("lastUpdateId"%string, PyInt 2)])
     = AssertionError.
Proof.
  split.
  - destruct (from_object_asserts (fun _ => None)
                [("b"%string, PyList [PyNone]); ("a"%string, PyList []);
                 ("U"%string, PyBool true); ("u"%string, PyInt 2)]) as (H & _).
    apply (H (PyList [PyNone]) (PyList []) (PyBool true) (PyInt 2)); try reflexivity.
    right; right; left. intros z; discriminate.
  - destruct (from_object_asserts (fun _ => None)
                [("bids"%string, PyTuple []); ("asks"%string, PyList []);
                 ("lastUpdateId"%string, PyInt 2)]) as (_ & H).
    apply (H (PyTuple []) (PyList []) (PyInt 2)); try reflexivity.
    left. intros l; discriminate.
Defined.

Lemma update_from_object_bad_level_witness :
  Wire.PartialUpdate_from_object (fun _ => None)
    (PyDict [("b"%string, PyList [Wire.level_as_list (Sample.level 1 2); PyList [PyFloat zero]]);
             ("a"%string, PyList [PyNone]);
             ("U"%string, PyInt 1); ("u"%string, PyInt 2)])
  = Failed IndexError.
Proof.
  destruct (update_from_object_bad_level (fun _ => None)
              [("b"%string, PyList [Wire.level_as_list (Sample.level 1 2); PyList [PyFloat zero]]);
               ("a"%string, PyList [PyNone]);
               ("U"%string, PyInt 1); ("u"%string, PyInt 2)]
              [Wire.level_as_list (Sample.level 1 2); PyList [PyFloat zero]]
              [PyNone] 1 2
              [Wire.level_as_list (Sample.level 1 2)] (PyList [PyFloat zero]) []
              [Sample.level 1 2] IndexError
              eq_refl eq_refl eq_refl eq_refl eq_refl eq_refl) as (H & _).
  apply H. reflexivity.
Defined.

(** ** What a merge leaves under a price *)

Section MergeLookup.

Import LevelsInv.

Lemma getitem_find (d : SortedDict.t PriceLevel.t) (p : float) :
  SortedDict.getitem d p =
  match option_map snd (SortedDict.find_item p d) with
  | Some v => Return v
  | None => Raise KeyError
  end.
Proof.
  unfold SortedDict.getitem. now destruct (SortedDict.find_item p d) as [[k v] |].
Qed.

Lemma last_for_snoc (p : float) (lvls : list PriceLevel.t) (l : PriceLevel.t) :
  last_for p (lvls ++ [l]) =
  if feq (PriceLevel.price l) p then Some l else last_for p lvls.
Proof. unfold last_for. now rewrite rev_app_distr. Qed.

Lemma last_for_cons (p : float) (l : PriceLevel.t) (lvls : list PriceLevel.t) :
  last_for p (l :: lvls) =
  match last_for p lvls with
  | Some x => Some x
  | None => if feq (PriceLevel.price l) p then Some l else None
  end.
Proof.
  unfold last_for. simpl rev.
  induction (rev lvls) as [| x xs IH]; simpl; trivial.
  now destruct (feq (PriceLevel.price x) p).
Qed.

Lemma last_for_none (p : float) (lvls : list PriceLevel.t) :
  last_for p lvls = None <->
  forall l, In l lvls -> feq (PriceLevel.price l) p = false.
Proof.
  unfold last_for. split.
  - intros H l Hin. apply in_rev in Hin.
    apply (find_none _ _ H l Hin).
  - intros H. destruct (find _ (rev lvls)) as [x |] eqn:E; trivial.
    apply find_some in E. destruct E as (Hin & Hx).
    apply in_rev in Hin. rewrite (H x Hin) in Hx. discriminate.
Qed.

Lemma fold_effect_last (key : float) (lvls : list PriceLevel.t)
  (r : option (float * PriceLevel.t)) :
  option_map snd (fold_left (merge_effect key) lvls r) =
  match last_for key lvls with
  | Some l => if feq (PriceLevel.quantity l) zero then None else Some l
  | None => option_map snd r
  end.
Proof.
  induction lvls as [| l lvls IH] using rev_ind; trivial.
  rewrite fold_left_app, last_for_snoc. simpl. unfold merge_effect at 1.
  destruct (feq (PriceLevel.price l) key); trivial.
  now destruct (feq (PriceLevel.quantity l) zero).
Qed.

Lemma fold_effect_untouched (key : float) (lvls : list PriceLevel.t)
  (r : option (float * PriceLevel.t)) :
  (forall l, In l lvls -> feq (PriceLevel.price l) key = false) ->
  fold_left (merge_effect key) lvls r = r.
Proof.
  revert r. induction lvls as [| l lvls IH]; intros r H; trivial.
  simpl. unfold merge_effect at 2. rewrite (H l) by (simpl; auto).
  apply IH. intros l' Hl'. apply H. simpl. auto.
Qed.



Lemma existsb_false (A : Type) (f : A -> bool) (l : list A) :
  existsb f l = false -> forall x, In x l -> f x = false.
Proof.
  intros H x Hin. destruct (f x) eqn:E; trivial.
  assert (existsb f l = true) by (apply existsb_exists; eauto). congruence.
Qed.

Lemma disjoint_prices_spec (l1 l2 : list PriceLevel.t) :
  disjoint_prices l1 l2 = true ->
  forall a b, In a l1 -> In b l2 ->
              feq (PriceLevel.price a) (PriceLevel.price b) = false.
Proof.
  unfold disjoint_prices. rewrite forallb_forall. intros H a b Ha Hb.
  specialize (H a Ha). rewrite forallb_forall in H.
  apply negb_true_iff. now apply H.
Qed.

(** X6. Two batches that share no price can be merged in either order: the
    container ends up exactly the same. *)
Theorem merge_disjoint_commute (self : Levels.t) (l1 l2 : list PriceLevel.t) :
  sorted self = true ->
  ordered_prices l1 = true ->
  ordered_prices l2 = true ->
  disjoint_prices l1 l2 = true ->
  Levels.merge l1 (Levels.merge l2 self) = Levels.merge l2 (Levels.merge l1 self).
Proof.
  intros Hs H1 H2 Hdis.
  pose proof (sorted_merge l1 self H1 Hs) as Hs1.
  pose proof (sorted_merge l2 self H2 Hs) as Hs2.
  apply levels_eq. apply sorted_ext; try now apply sorted_merge.
  intros key.
  rewrite (find_item_merge l1 _ key H1 Hs2), (find_item_merge l2 self key H2 Hs).
  rewrite (find_item_merge l2 _ key H2 Hs1), (find_item_merge l1 self key H1 Hs).
  destruct (existsb (fun a => feq (PriceLevel.price a) key) l1) eqn:E.
  - apply existsb_exists in E. destruct E as (a & Ha & Hak).
    assert (Hnone : forall b, In b l2 -> feq (PriceLevel.price b) key = false).
    { intros b Hb.
      rewrite <- (feq_feq_r _ _ (PriceLevel.price b) Hak), feq_sym.
      now apply (disjoint_prices_spec l1 l2 Hdis). }
    now rewrite !(fold_effect_untouched key l2) by exact Hnone.
  - pose proof (existsb_false _ _ l1 E) as Hnone. simpl in Hnone.
    now rewrite !(fold_effect_untouched key l1) by exact Hnone.
Qed.

Lemma merge_disjoint_commute_witness :
  Levels.merge [Sample.level 1 0; Sample.level 3 7]
    (Levels.merge [Sample.level 2 0; Sample.level 4 1] Sample.two)
  = Levels.merge [Sample.level 2 0; Sample.level 4 1]
      (Levels.merge [Sample.level 1 0; Sample.level 3 7] Sample.two).
Proof.
  apply (merge_disjoint_commute Sample.two
           [Sample.level 1 0; Sample.level 3 7] [Sample.level 2 0; Sample.level 4 1]);
    reflexivity.
Defined.

End MergeLookup.

(** ** Resident counts *)

Section ResidentCount.

Import LevelsInv.

Lemma length_replace (V : Type) (key : float) (v : V) (d : SortedDict.t V) :
  List.length (SortedDict.replace key v d) = List.length d.
Proof.
  induction d as [| [k0 v0] d IH]; simpl; trivial.
  destruct (feq k0 key); simpl; auto.
Qed.

Lemma length_insort (V : Type) (key : float) (v : V) (d : SortedDict.t V) :
  List.length (SortedDict.insort key v d) = S (List.length d).
Proof.
  induction d as [| [k0 v0] d IH]; simpl; trivial.
  destruct (flt key k0); simpl; auto.
Qed.

Lemma length_remove (V : Type) (key : float) (d : SortedDict.t V) (e : float * V) :
  SortedDict.find_item key d = Some e ->
  S (List.length (SortedDict.remove key d)) = List.length d.
Proof.
  induction d as [| [k0 v0] d IH]; simpl; [discriminate |].
  destruct (feq k0 key); simpl; auto.
Qed.

(** One iteration of [merge] changes the count by one, and only when the
    price was absent (a placement) or present (a removal). *)
Lemma len_merge_level (self : Levels.t) (level : PriceLevel.t) :
  Levels.len (Levels.merge_level self level) =
  Levels.len self
  + (if is_removal level
     then (if SortedDict.contains (PriceLevel.price level) (Levels.levels self)
           then -1 else 0)
     else (if SortedDict.contains (PriceLevel.price level) (Levels.levels self)
           then 0 else 1)).
Proof.
  unfold Levels.len, Levels.merge_level, is_removal, SortedDict.len.
  destruct (feq (PriceLevel.quantity level) zero); simpl;
    unfold SortedDict.pop, SortedDict.setitem, SortedDict.contains;
    destruct (SortedDict.find_item (PriceLevel.price level) (Levels.levels self))
      as [[k v] |] eqn:E; simpl.
  - apply length_remove in E. lia.
  - lia.
  - rewrite length_replace. lia.
  - rewrite length_insort. lia.
Qed.

(** X7. A merge changes the number of resident levels by no more than the
    batch allows: it drops by at most the number of zero-quantity levels in
    the batch and grows by at most the number of the others. *)
Theorem len_merge_bounds (self : Levels.t) (lvls : list PriceLevel.t) :
  Levels.len self - removals lvls <= Levels.len (Levels.merge lvls self)
  /\ Levels.len (Levels.merge lvls self) <= Levels.len self + placements lvls.
Proof.
  revert self. induction lvls as [| l lvls IH]; intros self.
  - unfold removals, placements. simpl. lia.
  - rewrite merge_cons. specialize (IH (Levels.merge_level self l)).
    rewrite len_merge_level in IH.
    unfold removals, placements in *. simpl filter.
    destruct (is_removal l); simpl negb; cbv iota;
      destruct (SortedDict.contains (PriceLevel.price l) (Levels.levels self));
      simpl List.length; lia.
Qed.

Lemma distinct_prices_cons (l : PriceLevel.t) (lvls : list PriceLevel.t) :
  distinct_prices (l :: lvls) = true ->
  (forall b, In b lvls -> feq (PriceLevel.price l) (PriceLevel.price b) = false)
  /\ distinct_prices lvls = true.
Proof.
  simpl. rewrite andb_true_iff. intros (Hd & Hrest). split; trivial.
  intros b Hb. apply (disjoint_prices_spec [l] lvls Hd); simpl; auto.
Qed.

Lemma last_for_distinct (lvls : list PriceLevel.t) (l : PriceLevel.t) :
  ordered_prices lvls = true ->
  distinct_prices lvls = true ->
  In l lvls ->
  last_for (PriceLevel.price l) lvls = Some l.
Proof.
  induction lvls as [| l0 lvls IH]; [easy |].
  unfold ordered_prices. simpl forallb.
  rewrite andb_true_iff, negb_true_iff. intros (Hnan & Hord) Hdis Hin.
  apply distinct_prices_cons in Hdis. destruct Hdis as (Hl0 & Hdis).
  rewrite last_for_cons. destruct Hin as [-> | Hin].
  - assert (Hnone : last_for (PriceLevel.price l) lvls = None).
    { apply last_for_none. intros b Hb. rewrite feq_sym. now apply Hl0. }
    now rewrite Hnone, feq_refl.
  - now rewrite (IH Hord Hdis Hin).
Qed.

Lemma len_merge_fresh (lvls : list PriceLevel.t) (self : Levels.t) :
  sorted self = true ->
  ordered_prices lvls = true ->
  distinct_prices lvls = true ->
  removals lvls = 0 ->
  (forall l, In l lvls ->
             SortedDict.find_item (PriceLevel.price l) (Levels.levels self) = None) ->
  Levels.len (Levels.merge lvls self) = Levels.len self + Z.of_nat (List.length lvls).
Proof.
  revert self. induction lvls as [| l0 lvls IH]; intros self Hs.
  - intros _ _ _ _. simpl. lia.
  - unfold ordered_prices. simpl forallb.
    rewrite andb_true_iff, negb_true_iff. intros (Hnan & Hord) Hdis Hrem Hfresh.
    apply distinct_prices_cons in Hdis. destruct Hdis as (Hl0 & Hdis).
    assert (Hq : is_removal l0 = false /\ removals lvls = 0).
    { unfold removals in *. simpl filter in Hrem.
      destruct (is_removal l0); simpl List.length in Hrem; [lia | auto]. }
    destruct Hq as (Hq & Hrem').
    rewrite merge_cons, IH; trivial.
    + rewrite len_merge_level, Hq. unfold SortedDict.contains.
      rewrite (Hfresh l0) by (simpl; auto). simpl List.length. lia.
    + now apply sorted_merge_level.
    + intros l Hl. rewrite find_item_merge_level by trivial.
      unfold merge_effect. rewrite (Hl0 l Hl).
      apply Hfresh. simpl. auto.
Qed.

(** X8. A snapshot whose bids, and whose asks, have pairwise different
    prices (none NaN) and no zero quantity is held by the new book in full:
    the book has as many levels as the snapshot lists, and each listed level
    is the one stored under its price on its side. *)
Theorem init_holds_snapshot (s : Snapshot.t) :
  BookInv.ordered_snapshot s = true ->
  distinct_prices (Snapshot.bids s) = true ->
  distinct_prices (Snapshot.asks s) = true ->
  removals (Snapshot.bids s) = 0 ->
  removals (Snapshot.asks s) = 0 ->
  let book := BinanceOrderBook.init s in
  BinanceOrderBook.len book
  = Z.of_nat (List.length (Snapshot.bids s)) + Z.of_nat (List.length (Snapshot.asks s))
  /\ (forall l, In l (Snapshot.bids s) ->
                SortedDict.getitem (Levels.levels (BinanceOrderBook.bids book))
                                   (PriceLevel.price l) = Return l)
  /\ (forall l, In l (Snapshot.asks s) ->
                SortedDict.getitem (Levels.levels (BinanceOrderBook.asks book))
                                   (PriceLevel.price l) = Return l).
Proof.
  intros Hord Hdb Hda Hrb Hra book.
  apply andb_true_iff in Hord. destruct Hord as (Hob & Hoa).
  assert (Hlookup : forall lvls l,
             ordered_prices lvls = true -> distinct_prices lvls = true ->
             removals lvls = 0 -> In l lvls ->
             SortedDict.getitem (Levels.levels (Levels.merge lvls Levels.init))
                                (PriceLevel.price l) = Return l).
  { intros lvls l Ho Hd Hr Hin.
    rewrite getitem_find, (find_item_merge lvls Levels.init _ Ho eq_refl).
    rewrite fold_effect_last, (last_for_distinct lvls l Ho Hd Hin).
    assert (Hq : feq (PriceLevel.quantity l) zero = false).
    { destruct (feq (PriceLevel.quantity l) zero) eqn:E; trivial.
      assert (Hf : In l (filter is_removal lvls)) by (apply filter_In; auto).
      unfold removals in Hr. destruct (filter is_removal lvls); [easy | discriminate]. }
    now rewrite Hq. }
  split; [| split].
  - unfold BinanceOrderBook.len, book, BinanceOrderBook.init. simpl.
    rewrite !len_merge_fresh; trivial.
  - intros l Hin. now apply Hlookup.
  - intros l Hin. now apply Hlookup.
Qed.

Lemma init_holds_snapshot_witness :
  BinanceOrderBook.len Sample.book = 10 + 2
  /\ SortedDict.getitem (Levels.levels (BinanceOrderBook.bids Sample.book))
                        (Sample.fl 7) = Return (Sample.level 7 1)
  /\ SortedDict.getitem (Levels.levels (BinanceOrderBook.asks Sample.book))
                        (Sample.fl 12) = Return (Sample.level 12 3).
Proof.
  destruct (init_holds_snapshot Sample.snapshot eq_refl eq_refl eq_refl eq_refl eq_refl)
    as (Hlen & Hbids & Hasks).
  split; [exact Hlen | split].
  - apply (Hbids (Sample.level 7 1)). simpl. tauto.
  - apply (Hasks (Sample.level 12 3)). simpl. tauto.
Defined.

End ResidentCount.

(** ** Best prices, one by one *)

Section BestOneByOne.

Import BinanceOrderBook.

Lemma slice_items_top (V : Type) (d : SortedDict.t V) (n : Z) (reverse : bool) :
  1 <= n ->
  slice_items (Some (- n)) None reverse d =
  let items := skipn (Z.to_nat (Z.max (SortedDict.len d - n) 0)) d in
  if reverse then rev items else items.
Proof.
  intros Hn. unfold slice_items.
  destruct (Z.eqb_spec (SortedDict.len d) 0) as [H0 | H0].
  - apply len_zero in H0. subst d. cbv zeta. rewrite skipn_nil. now destruct reverse.
  - assert (Hpos : 0 < SortedDict.len d) by (unfold SortedDict.len in *; lia).
    unfold slice_index.
    destruct (Z.ltb_spec (- n) 0); [| lia].
    replace (- n + SortedDict.len d) with (SortedDict.len d - n) by lia.
    destruct (Z.geb_spec (Z.max (SortedDict.len d - n) 0) (SortedDict.len d)); [lia |].
    cbv zeta. rewrite firstn_all2; trivial.
    rewrite length_skipn. unfold SortedDict.len in *. lia.
Qed.

Lemma slice_items_bottom (V : Type) (d : SortedDict.t V) (n : Z) (reverse : bool) :
  1 <= n ->
  slice_items None (Some n) reverse d =
  let items := firstn (Z.to_nat (Z.min n (SortedDict.len d))) d in
  if reverse then rev items else items.
Proof.
  intros Hn. unfold slice_items.
  destruct (Z.eqb_spec (SortedDict.len d) 0) as [H0 | H0].
  - apply len_zero in H0. subst d. cbv zeta. rewrite firstn_nil. now destruct reverse.
  - assert (Hpos : 0 < SortedDict.len d) by (unfold SortedDict.len in *; lia).
    unfold slice_index.
    destruct (Z.ltb_spec n 0); [lia |].
    destruct (Z.geb_spec 0 (Z.min n (SortedDict.len d))); [lia |].
    now rewrite Z.sub_0_r.
Qed.

(** X9. The ranked slices list the single-level answers in order: for
    [1 <= i <= n] and [i] at most the resident count of the side, the
    [i]-th level that [best_bids(n)] yields is the level [best_bid(i)]
    returns, and likewise for [best_asks(n)] and [best_ask(i)]. *)
Theorem best_slices_list_best_levels (book : t) (n i : Z) :
  BookInv.sorted book = true ->
  1 <= i <= n ->
  (i <= Levels.len (bids book) ->
   exists lvl lb,
     best_bid i book = Return lvl /\ best_bids n book = Return lb
     /\ nth_error lb (Z.to_nat (i - 1)) = Some lvl)
  /\ (i <= Levels.len (asks book) ->
      exists lvl la,
        best_ask i book = Return lvl /\ best_asks n book = Return la
        /\ nth_error la (Z.to_nat (i - 1)) = Some lvl).
Proof.
  intros Hsorted Hi. unfold BookInv.sorted in Hsorted.
  apply andb_true_iff in Hsorted. destruct Hsorted as (Hsb & Hsa).
  split; intros Hlen.
  - set (d := Levels.levels (bids book)) in *.
    assert (Hk : Levels.len (bids book) = Z.of_nat (List.length d)) by reflexivity.
    destruct (nth_error_lt _ d (Z.to_nat (Levels.len (bids book) - i)))
      as ([key lvl] & Hnth); [lia |].
    exists lvl, (map snd (slice_items (Some (- n)) None true d)).
    split; [| split].
    + apply (max_at (bids book) _ key lvl i Hsb Hnth). right. lia.
    + unfold best_bids. now apply max_slice_items.
    + rewrite slice_items_top by lia. cbv zeta.
      rewrite nth_error_map, nth_error_rev, length_skipn.
      unfold SortedDict.len. fold d.
      destruct (Nat.ltb_spec (Z.to_nat (i - 1))
                  (List.length d - Z.to_nat (Z.max (Z.of_nat (List.length d) - n) 0)));
        [| lia].
      rewrite nth_error_skipn.
      replace (Z.to_nat (Z.max (Z.of_nat (List.length d) - n) 0)
               + (List.length d - Z.to_nat (Z.max (Z.of_nat (List.length d) - n) 0)
                  - S (Z.to_nat (i - 1))))%nat
        with (Z.to_nat (Levels.len (bids book) - i)) by lia.
      now rewrite Hnth.
  - set (d := Levels.levels (asks book)) in *.
    assert (Hk : Levels.len (asks book) = Z.of_nat (List.length d)) by reflexivity.
    destruct (nth_error_lt _ d (Z.to_nat (i - 1))) as ([key lvl] & Hnth); [lia |].
    exists lvl, (map snd (slice_items None (Some n) false d)).
    split; [| split].
    + apply (min_at (asks book) _ key lvl i Hsa Hnth). left. lia.
    + unfold best_asks. now apply min_slice_items.
    + rewrite slice_items_bottom by lia. cbv zeta.
      rewrite nth_error_map, nth_error_firstn.
      unfold SortedDict.len. fold d.
      destruct (Nat.ltb_spec (Z.to_nat (i - 1))
                  (Z.to_nat (Z.min n (Z.of_nat (List.length d))))); [| lia].
      now rewrite Hnth.
Qed.

Lemma best_slices_list_best_levels_witness :
  (exists lvl lb,
      best_bid 2 Sample.book = Return lvl /\ best_bids 3 Sample.book = Return lb
      /\ nth_error lb (Z.to_nat (2 - 1)) = Some lvl)
  /\ (exists lvl la,
        best_ask 2 Sample.book = Return lvl /\ best_asks 3 Sample.book = Return la
        /\ nth_error la (Z.to_nat (2 - 1)) = Some lvl).
Proof.
  destruct (best_slices_list_best_levels Sample.book 3 2 eq_refl) as (Hb & Ha).
  - split; discriminate.
  - split; [apply Hb | apply Ha]; discriminate.
Defined.

End BestOneByOne.

Section BestIsExtreme.

Import BinanceOrderBook.





End BestIsExtreme.

(** ** Streams of updates *)

Section Streams.

Import BinanceOrderBook.



Lemma last_cons (A : Type) (a : A) (l : list A) (d : A) :
  last (a :: l) d = last l a.
Proof.
  revert a d. induction l as [| b l IH]; intros a d; trivial.
  change (last (a :: b :: l) d) with (last (b :: l) d).
  now rewrite !IH.
Qed.

(** On the container in order: a stream in which every update starts right
    after the previous one ends is applied in full. *)
Lemma feed_contiguous (upds : list PartialUpdate.t) (book : t) :
  contiguous_from (last_update_id book) upds = true ->
  feed upds book =
  Make (LevelsInv.merges (map PartialUpdate.bids upds) (bids book))
       (LevelsInv.merges (map PartialUpdate.asks upds) (asks book))
       (last (map PartialUpdate.last_update_id upds) (last_update_id book)).
Proof.
  revert book. induction upds as [| u upds IH]; intros book.
  - intros _. now destruct book.
  - simpl contiguous_from. rewrite !andb_true_iff.
    intros ((Hfirst & Hwf) & Hrest).
    apply Z.eqb_eq in Hfirst. apply Z.leb_le in Hwf.
    change (feed (u :: upds) book) with (feed upds (snd (update u book))).
    destruct (update_cases u book) as [(Hs & _) | [(_ & Hg & _) | (_ & _ & Hu)]];
      try lia.
    rewrite Hu. simpl snd. rewrite IH by exact Hrest.
    simpl map. now rewrite last_cons.
Qed.

End Streams.

(** ** The exporter *)

Section ExporterFacts.

Import Exporter.

Lemma dict_get_set (A : Type) (m : list (Z * A)) (k : Z) (v : A) (k' : Z) :
  dict_get (dict_set m k v) k' = if k =? k' then Some v else dict_get m k'.
Proof.
  induction m as [| [k0 v0] m IH]; simpl.
  - reflexivity.
  - destruct (Z.eqb_spec k0 k) as [-> | Hne]; simpl.
    + now destruct (Z.eqb_spec k k').
    + rewrite IH. destruct (Z.eqb_spec k0 k') as [-> | Hne']; trivial.
      destruct (Z.eqb_spec k k'); [congruence | trivial].
Qed.

Lemma book_update_sorted (u : PartialUpdate.t) (book : BinanceOrderBook.t) :
  BookInv.ordered_update u = true ->
  BookInv.sorted book = true ->
  BookInv.sorted (snd (BinanceOrderBook.update u book)) = true.
Proof.
  intros Hord Hs.
  destruct (update_cases u book) as [(_ & ->) | [(_ & _ & ->) | (_ & _ & ->)]];
    trivial.
  unfold BookInv.ordered_update, BookInv.sorted in *.
  apply andb_true_iff in Hord, Hs. destruct Hord as (Hb & Ha), Hs as (Hsb & Hsa).
  simpl. apply andb_true_iff. split; now apply sorted_merge.
Qed.

Lemma top_slice_length (V : Type) (d : SortedDict.t V) (n : Z) (reverse : bool) :
  1 <= n ->
  Z.of_nat (List.length (slice_items (Some (- n)) None reverse d))
  = Z.min n (SortedDict.len d).
Proof.
  intros Hn. rewrite slice_items_top by trivial. cbv zeta.
  assert (H : Z.of_nat (List.length (skipn (Z.to_nat (Z.max (SortedDict.len d - n) 0)) d))
              = Z.min n (SortedDict.len d)).
  { rewrite length_skipn. unfold SortedDict.len. lia. }
  destruct reverse; [rewrite length_rev |]; exact H.
Qed.

Lemma bottom_slice_length (V : Type) (d : SortedDict.t V) (n : Z) (reverse : bool) :
  1 <= n ->
  Z.of_nat (List.length (slice_items None (Some n) reverse d))
  = Z.min n (SortedDict.len d).
Proof.
  intros Hn. rewrite slice_items_bottom by trivial. cbv zeta.
  assert (H : Z.of_nat (List.length (firstn (Z.to_nat (Z.min n (SortedDict.len d))) d))
              = Z.min n (SortedDict.len d)).
  { rewrite length_firstn. unfold SortedDict.len. lia. }
  destruct reverse; [rewrite length_rev |]; exact H.
Qed.

(** X13. For a book whose sides are in order, [ExportData.on_orderbook_update]
    raises nothing and appends exactly one row to each of its four lists:
    the bid prices strictly descending, the ask prices strictly ascending,
    the sizes alongside, each row as long as the side has levels but never
    longer than ten. *)
Theorem export_row_shape (book : BinanceOrderBook.t) (history : ExportData.t) :
  BookInv.sorted book = true ->
  BookInv.coherent book = true ->
  exists lb la,
    ExportData.on_orderbook_update book history =
    Return (ExportData.Make
              (ExportData.bids10 history ++ [map PriceLevel.price lb])
              (ExportData.asks10 history ++ [map PriceLevel.price la])
              (ExportData.bids10_size history ++ [map PriceLevel.quantity lb])
              (ExportData.asks10_size history ++ [map PriceLevel.quantity la]))
    /\ descending (map PriceLevel.price lb) = true
    /\ ascending (map PriceLevel.price la) = true
    /\ Z.of_nat (List.length lb) = Z.min 10 (Levels.len (BinanceOrderBook.bids book))
    /\ Z.of_nat (List.length la) = Z.min 10 (Levels.len (BinanceOrderBook.asks book)).
Proof.
  intros Hsorted Hcoh. unfold BookInv.sorted, BookInv.coherent in *.
  apply andb_true_iff in Hsorted, Hcoh.
  destruct Hsorted as (Hsb & Hsa), Hcoh as (Hcb & Hca).
  exists (map snd (slice_items (Some (- 10)) None true
                     (Levels.levels (BinanceOrderBook.bids book)))),
         (map snd (slice_items None (Some 10) false
                     (Levels.levels (BinanceOrderBook.asks book)))).
  split; [| split; [| split; [| split]]].
  - unfold ExportData.on_orderbook_update,
      BinanceOrderBook.best_bids, BinanceOrderBook.best_asks.
    rewrite (max_slice_items _ 10 true Hsb), (min_slice_items _ 10 false Hsa).
    reflexivity.
  - eapply descending_feq.
    + apply (prices_feq_keys (BinanceOrderBook.bids book)); trivial.
      intros e. apply slice_items_In.
    + apply (slice_items_order _ (Some (- 10)) None true). exact Hsb.
  - eapply ascending_feq.
    + apply (prices_feq_keys (BinanceOrderBook.asks book)); trivial.
      intros e. apply slice_items_In.
    + apply (slice_items_order _ None (Some 10) false). exact Hsa.
  - rewrite length_map.
    apply (top_slice_length _ (Levels.levels (BinanceOrderBook.bids book)) 10 true). lia.
  - rewrite length_map.
    apply (bottom_slice_length _ (Levels.levels (BinanceOrderBook.asks book)) 10 false). lia.
Qed.

Lemma export_row_shape_witness :
  exists lb la,
    ExportData.on_orderbook_update Sample.book ExportData.init =
    Return (ExportData.Make
              ([] ++ [map PriceLevel.price lb]) ([] ++ [map PriceLevel.price la])
              ([] ++ [map PriceLevel.quantity lb]) ([] ++ [map PriceLevel.quantity la]))
    /\ descending (map PriceLevel.price lb) = true
    /\ ascending (map PriceLevel.price la) = true
    /\ Z.of_nat (List.length lb) = Z.min 10 (Levels.len (BinanceOrderBook.bids Sample.book))
    /\ Z.of_nat (List.length la) = Z.min 10 (Levels.len (BinanceOrderBook.asks Sample.book)).
Proof.
  apply (export_row_shape Sample.book ExportData.init); reflexivity.
Defined.

Lemma history_grows (book : BinanceOrderBook.t) (history : ExportData.t) :
  BookInv.sorted book = true ->
  exists history',
    ExportData.on_orderbook_update book history = Return history'
    /\ ExportData.len history' = ExportData.len history + 1.
Proof.
  intros Hsorted. unfold BookInv.sorted in Hsorted.
  apply andb_true_iff in Hsorted. destruct Hsorted as (Hsb & Hsa).
  unfold ExportData.on_orderbook_update,
    BinanceOrderBook.best_bids, BinanceOrderBook.best_asks.
  rewrite (max_slice_items _ 10 true Hsb), (min_slice_items _ 10 false Hsa).
  simpl. eexists. split; [reflexivity |].
  unfold ExportData.len. simpl. rewrite length_app. simpl. lia.
Qed.

Lemma on_orderbook_update_rows (data : export_data) (book_id : Z)
  (book : BinanceOrderBook.t) :
  BookInv.sorted book = true ->
  exists data',
    on_orderbook_update data book_id book = Return data'
    /\ forall id, rows data' id = rows data id + (if book_id =? id then 1 else 0).
Proof.
  intros Hs. unfold on_orderbook_update.
  destruct (dict_get data book_id) as [history |] eqn:E.
  - rewrite E. destruct (history_grows book history Hs) as (history' & -> & Hlen).
    simpl. eexists. split; [reflexivity |].
    intros id. unfold rows. rewrite dict_get_set.
    destruct (Z.eqb_spec book_id id) as [<- | _]; [| lia].
    rewrite E. lia.
  - rewrite dict_get_set, Z.eqb_refl.
    destruct (history_grows book ExportData.init Hs) as (history' & -> & Hlen).
    simpl. eexists. split; [reflexivity |].
    intros id. unfold rows. rewrite !dict_get_set.
    destruct (Z.eqb_spec book_id id) as [<- | _]; [| lia].
    rewrite E. rewrite Hlen. reflexivity.
Qed.

Lemma signals_gap_after (u : PartialUpdate.t) (book : BinanceOrderBook.t) :
  signals_gap u (snd (BinanceOrderBook.update u book)) = signals_gap u book.
Proof.
  destruct (update_cases u book) as [(_ & Hu) | [(_ & _ & Hu) | (Hl & Hf & Hu)]];
    rewrite Hu; simpl snd; trivial.
  unfold signals_gap at 2. rewrite Hu. simpl.
  unfold signals_gap, BinanceOrderBook.update. simpl.
  rewrite Z.ltb_irrefl.
  destruct (Z.gtb_spec (PartialUpdate.first_update_id u)
                       (PartialUpdate.last_update_id u + 1)); [lia | reflexivity].
Qed.

(** The first loop of [apply_update_to_orderbooks]. *)
Lemma update_each_spec (books : orderbooks) (data : export_data) (u : PartialUpdate.t) :
  all_sorted books = true ->
  BookInv.ordered_update u = true ->
  exists data',
    update_each data books u =
    Return (data',
            map (fun e => (fst e, snd (BinanceOrderBook.update u (snd e)))) books,
            map fst (filter (fun e => signals_gap u (snd e)) books))
    /\ forall id, rows data' id = rows data id + applied_count u books id.
Proof.
  intros Hall Hord. revert data.
  induction books as [| [book_id book] books IH]; intros data.
  - exists data. split; [reflexivity |]. intros id. unfold applied_count. simpl. lia.
  - unfold all_sorted in Hall. simpl forallb in Hall.
    apply andb_true_iff in Hall. destruct Hall as (Hs & Hall).
    specialize (IH Hall). simpl in Hs.
    unfold applied_count. simpl filter. simpl map. simpl update_each.
    unfold signals_gap at 1, is_applied at 1. simpl snd.
    destruct (update_cases u book) as [(_ & Hu) | [(_ & _ & Hu) | (_ & _ & Hu)]].
    + rewrite Hu. simpl. destruct (IH data) as (data' & -> & Hrows). simpl.
      exists data'. split; [reflexivity |].
      intros id. rewrite Hrows. unfold applied_count.
      now rewrite andb_false_r.
    + rewrite Hu. simpl. destruct (IH data) as (data' & -> & Hrows). simpl.
      exists data'. split; [reflexivity |].
      intros id. rewrite Hrows. unfold applied_count.
      now rewrite andb_false_r.
    + pose proof (book_update_sorted u book Hord Hs) as Hs'.
      rewrite Hu in Hs' |- *. simpl snd in Hs'. simpl.
      destruct (on_orderbook_update_rows data book_id _ Hs') as (data1 & -> & Hrows1).
      simpl. destruct (IH data1) as (data' & -> & Hrows). simpl.
      exists data'. split; [reflexivity |].
      intros id. rewrite Hrows, Hrows1. unfold applied_count.
      rewrite andb_true_r.
      destruct (book_id =? id); simpl List.length; lia.
Qed.

Lemma ascending_ids_cons (id : Z) (book : BinanceOrderBook.t) (books : orderbooks) :
  ascending_ids ((id, book) :: books) = true ->
  (forall e, In e books -> id < fst e) /\ ascending_ids books = true.
Proof.
  revert id book. induction books as [| [id' book'] books IH]; intros id book.
  - simpl. intros _. split; [intros e [] | reflexivity].
  - change (ascending_ids ((id, book) :: (id', book') :: books))
      with ((id <? id') && ascending_ids ((id', book') :: books)).
    rewrite andb_true_iff. intros (Hlt & Hasc). apply Z.ltb_lt in Hlt.
    split; trivial. destruct (IH id' book' Hasc) as (Hall & _).
    intros e [<- | Hin]; [exact Hlt |]. specialize (Hall e Hin). lia.
Qed.

Lemma delete_each_keep_head (id : Z) (book : BinanceOrderBook.t)
  (ids : list Z) (books : orderbooks) :
  ~ In id ids ->
  delete_each ((id, book) :: books) ids =
  (rest <- delete_each books ids ;; Return ((id, book) :: rest)).
Proof.
  revert books. induction ids as [| id' ids IH]; intros books Hnot; trivial.
  simpl delete_each.
  destruct (Z.eqb_spec id id') as [-> | Hne]; [elim Hnot; simpl; auto |].
  destruct (dict_del books id') as [books' | e]; simpl; trivial.
  apply IH. intros Hin. apply Hnot. simpl. auto.
Qed.

Lemma delete_each_filter (P : Z * BinanceOrderBook.t -> bool) (books : orderbooks) :
  ascending_ids books = true ->
  delete_each books (map fst (filter P books)) =
  Return (filter (fun e => negb (P e)) books).
Proof.
  induction books as [| [id book] books IH]; trivial.
  intros Hasc. apply ascending_ids_cons in Hasc. destruct Hasc as (Habove & Hasc).
  simpl filter. destruct (P (id, book)); simpl negb; cbv iota.
  - simpl. rewrite Z.eqb_refl. simpl. now apply IH.
  - rewrite delete_each_keep_head.
    + now rewrite (IH Hasc).
    + intros Hin. apply in_map_iff in Hin. destruct Hin as (e & He & Hin).
      apply filter_In in Hin. destruct Hin as (Hin & _).
      specialize (Habove e Hin). lia.
Qed.

Lemma filter_map_swap (A B : Type) (f : A -> B) (P : B -> bool) (l : list A) :
  filter P (map f l) = map f (filter (fun x => P (f x)) l).
Proof.
  induction l as [| a l IH]; simpl; trivial.
  destruct (P (f a)); simpl; now rewrite IH.
Qed.

Lemma filter_filter (A : Type) (P Q : A -> bool) (l : list A) :
  filter P (filter Q l) = filter (fun x => Q x && P x) l.
Proof.
  induction l as [| a l IH]; simpl; trivial.
  destruct (Q a); simpl; [destruct (P a) |]; now rewrite IH.
Qed.

Lemma ascending_ids_fst (f : Z * BinanceOrderBook.t -> Z * BinanceOrderBook.t)
  (books : orderbooks) :
  (forall e, fst (f e) = fst e) ->
  ascending_ids (map f books) = ascending_ids books.
Proof.
  intros Hf. induction books as [| [id book] books IH]; trivial.
  simpl map. destruct (f (id, book)) as [id1 book1] eqn:E1.
  assert (Hid : id1 = id) by (specialize (Hf (id, book)); now rewrite E1 in Hf).
  subst id1. destruct books as [| [id' book'] books]; trivial.
  simpl map in *. destruct (f (id', book')) as [id2 book2] eqn:E2.
  assert (Hid : id2 = id') by (specialize (Hf (id', book')); now rewrite E2 in Hf).
  subst id2.
  change (ascending_ids ((id, book1) :: (id', book2) :: map f books))
    with ((id <? id') && ascending_ids ((id', book2) :: map f books)).
  now rewrite IH.
Qed.

Lemma ascending_ids_filter (P : Z * BinanceOrderBook.t -> bool) (books : orderbooks) :
  ascending_ids books = true -> ascending_ids (filter P books) = true.
Proof.
  induction books as [| [id book] books IH]; trivial.
  intros Hasc. apply ascending_ids_cons in Hasc. destruct Hasc as (Habove & Hasc).
  simpl filter. destruct (P (id, book)); [| now apply IH].
  specialize (IH Hasc).
  destruct (filter P books) as [| [id' book'] rest] eqn:E; trivial.
  change (ascending_ids ((id, book) :: (id', book') :: rest))
    with ((id <? id') && ascending_ids ((id', book') :: rest)).
  rewrite IH, andb_true_r. apply Z.ltb_lt.
  apply (Habove (id', book')).
  assert (Hin : In (id', book') (filter P books)) by (rewrite E; simpl; auto).
  apply filter_In in Hin. tauto.
Qed.

End ExporterFacts.

Section Registry.

Import Exporter.

Lemma all_sorted_step (u : PartialUpdate.t) (P : Z * BinanceOrderBook.t -> bool)
  (books : orderbooks) :
  BookInv.ordered_update u = true ->
  all_sorted books = true ->
  all_sorted (map (fun e => (fst e, snd (BinanceOrderBook.update u (snd e))))
                  (filter P books)) = true.
Proof.
  intros Hord. unfold all_sorted. rewrite !forallb_forall. intros Hall e He.
  apply in_map_iff in He. destruct He as (e0 & <- & He0).
  apply filter_In in He0. destruct He0 as (He0 & _).
  simpl. apply book_update_sorted; auto.
Qed.

(** One call of [apply_update_to_orderbooks], in full. *)
Lemma apply_update_spec (data : export_data) (books : orderbooks) (u : PartialUpdate.t) :
  all_sorted books = true ->
  ascending_ids books = true ->
  BookInv.ordered_update u = true ->
  let books' :=
    map (fun e => (fst e, snd (BinanceOrderBook.update u (snd e))))
        (filter (fun e => negb (signals_gap u (snd e))) books) in
  exists data',
    apply_update_to_orderbooks data books u = Return (data', books')
    /\ (forall id, rows data' id = rows data id + applied_count u books id)
    /\ all_sorted books' = true
    /\ ascending_ids books' = true.
Proof.
  intros Hall Hasc Hord books'.
  destruct (update_each_spec books data u Hall Hord) as (data' & Heach & Hrows).
  exists data'. split; [| split; [| split]]; trivial.
  - unfold apply_update_to_orderbooks. rewrite Heach. simpl.
    set (upd := fun e : Z * BinanceOrderBook.t =>
                  (fst e, snd (BinanceOrderBook.update u (snd e)))).
    assert (Hids : map fst (filter (fun e => signals_gap u (snd e)) books)
                   = map fst (filter (fun e => signals_gap u (snd e)) (map upd books))).
    { rewrite filter_map_swap, map_map. simpl.
      f_equal. apply filter_ext. intros e. now rewrite signals_gap_after. }
    rewrite Hids, delete_each_filter.
    + simpl. unfold books'. fold upd. rewrite filter_map_swap. simpl.
      do 3 f_equal. apply filter_ext. intros e. now rewrite signals_gap_after.
    + rewrite ascending_ids_fst; trivial.
  - now apply all_sorted_step.
  - unfold books'. rewrite ascending_ids_fst by trivial.
    now apply ascending_ids_filter.
Qed.

(** X14. One call of [apply_update_to_orderbooks] on a registry of books in
    order, with an update whose prices are not NaN, raises nothing; it
    retires exactly the books that signalled a gap and leaves every other
    book, in the same order, in the state its own [update] call produced -
    and the registry is again one of sorted books under ascending ids. *)
Theorem apply_update_retires_gapped (data : export_data) (books : orderbooks)
  (u : PartialUpdate.t) :
  all_sorted books = true ->
  ascending_ids books = true ->
  BookInv.ordered_update u = true ->
  exists data' books',
    apply_update_to_orderbooks data books u = Return (data', books')
    /\ books' = map (fun e => (fst e, snd (BinanceOrderBook.update u (snd e))))
                    (filter (fun e => negb (signals_gap u (snd e))) books)
    /\ all_sorted books' = true
    /\ ascending_ids books' = true.
Proof.
  intros Hall Hasc Hord.
  destruct (apply_update_spec data books u Hall Hasc Hord) as (data' & H & _ & Hs & Ha).
  eexists data', _. repeat split; eassumption.
Qed.

Lemma apply_update_retires_gapped_witness :
  exists data' books',
    apply_update_to_orderbooks [] [(1, Sample.book); (2, Sample.book)] Sample.gapped
    = Return (data', books')
    /\ books' = map (fun e => (fst e, snd (BinanceOrderBook.update Sample.gapped (snd e))))
                    (filter (fun e => negb (signals_gap Sample.gapped (snd e)))
                            [(1, Sample.book); (2, Sample.book)])
    /\ all_sorted books' = true
    /\ ascending_ids books' = true.
Proof.
  apply (apply_update_retires_gapped [] [(1, Sample.book); (2, Sample.book)] Sample.gapped);
    reflexivity.
Defined.

Lemma applied_count_out (u : PartialUpdate.t) (books : orderbooks) (id : Z) :
  (forall e, In e books -> fst e <> id) -> applied_count u books id = 0.
Proof.
  intros H. unfold applied_count. rewrite filter_none; trivial.
  intros e He. apply andb_false_iff. left. apply Z.eqb_neq. now apply H.
Qed.

Lemma applied_count_in (u : PartialUpdate.t) (books : orderbooks)
  (id : Z) (book : BinanceOrderBook.t) :
  ascending_ids books = true ->
  In (id, book) books ->
  applied_count u books id = if is_applied u book then 1 else 0.
Proof.
  induction books as [| [id0 book0] books IH]; [easy |].
  intros Hasc Hin. apply ascending_ids_cons in Hasc. destruct Hasc as (Habove & Hasc).
  destruct Hin as [[= -> ->] | Hin].
  - pose proof (applied_count_out u books id) as Hout.
    unfold applied_count in *. simpl filter. rewrite Z.eqb_refl. simpl andb.
    assert (H0 : Z.of_nat (List.length
                (filter (fun e => (fst e =? id) && is_applied u (snd e)) books)) = 0).
    { apply Hout. intros e He. specialize (Habove e He). lia. }
    destruct (is_applied u book); simpl List.length; lia.
  - specialize (IH Hasc Hin). unfold applied_count in *. simpl filter.
    specialize (Habove (id, book) Hin). simpl in Habove.
    destruct (Z.eqb_spec id0 id); [lia |]. exact IH.
Qed.

(** X15. In such a call every book that applies the update gets exactly one
    more row in the export history kept under its id; a book that skips the
    update or signals a gap gets none, and the histories of ids that are not
    in the registry are not touched. *)
Theorem apply_update_exports_applied (data : export_data) (books : orderbooks)
  (u : PartialUpdate.t) :
  all_sorted books = true ->
  ascending_ids books = true ->
  BookInv.ordered_update u = true ->
  exists data' books',
    apply_update_to_orderbooks data books u = Return (data', books')
    /\ (forall id book,
          In (id, book) books ->
          rows data' id = rows data id + (if is_applied u book then 1 else 0))
    /\ (forall id,
          (forall e, In e books -> fst e <> id) -> rows data' id = rows data id).
Proof.
  intros Hall Hasc Hord.
  destruct (apply_update_spec data books u Hall Hasc Hord) as (data' & H & Hrows & _).
  eexists data', _. split; [exact H | split].
  - intros id book Hin. now rewrite Hrows, (applied_count_in u books id book Hasc Hin).
  - intros id Hout. rewrite Hrows, (applied_count_out u books id Hout). lia.
Qed.

Lemma apply_update_exports_applied_witness :
  exists data' books',
    apply_update_to_orderbooks [] [(1, Sample.book); (2, Sample.book)] Sample.contiguous
    = Return (data', books')
    /\ rows data' 2 = 1
    /\ rows data' 3 = 0.
Proof.
  destruct (apply_update_exports_applied [] [(1, Sample.book); (2, Sample.book)]
              Sample.contiguous eq_refl eq_refl eq_refl)
    as (data' & books' & H & Hin & Hout).
  exists data', books'. split; [exact H | split].
  - apply (Hin 2 Sample.book). simpl. tauto.
  - apply (Hout 3). intros e [<- | [<- | []]]; discriminate.
Defined.

(** X16. Over a whole stream of updates (prices not NaN) the loop of
    [process_data_tar_gz] raises nothing and ends with exactly the books
    that no update of the stream made signal a gap, each in the state that
    feeding it the stream gives. *)
Theorem process_updates_survivors (upds : list PartialUpdate.t)
  (data : export_data) (books : orderbooks) :
  all_sorted books = true ->
  ascending_ids books = true ->
  forallb BookInv.ordered_update upds = true ->
  exists data',
    process_updates data books upds =
    Return (data',
            map (fun e => (fst e, BinanceOrderBook.feed upds (snd e)))
                (filter (fun e => survives upds (snd e)) books)).
Proof.
  revert data books. induction upds as [| u upds IH]; intros data books Hall Hasc Hord.
  - exists data. simpl.
    rewrite (filter_all _ _ books) by trivial.
    rewrite (map_ext _ (fun e => e)) by (now intros [id book]).
    now rewrite map_id.
  - simpl forallb in Hord. apply andb_true_iff in Hord. destruct Hord as (Hu & Hus).
    destruct (apply_update_spec data books u Hall Hasc Hu)
      as (data1 & Hstep & _ & Hall1 & Hasc1).
    simpl process_updates. rewrite Hstep. simpl.
    destruct (IH data1 _ Hall1 Hasc1 Hus) as (data' & ->).
    exists data'. do 2 f_equal.
    rewrite filter_map_swap, map_map, filter_filter. simpl.
    reflexivity.
Qed.

Lemma process_updates_survivors_witness :
  exists data',
    process_updates [] [(1, Sample.book); (2, Sample.book)]
                    [Sample.stale; Sample.contiguous]
    = Return (data',
              map (fun e => (fst e,
                             BinanceOrderBook.feed [Sample.stale; Sample.contiguous] (snd e)))
                  (filter (fun e => survives [Sample.stale; Sample.contiguous] (snd e))
                          [(1, Sample.book); (2, Sample.book)])).
Proof.
  apply (process_updates_survivors [Sample.stale; Sample.contiguous] []
           [(1, Sample.book); (2, Sample.book)]); reflexivity.
Defined.

End Registry.

(** ** The timestamp of a snapshot member *)

Section TimestampText.

Import Exporter.
Local Open Scope string_scope.

Lemma char_in_head (c : Ascii.ascii) (s : string) : char_in c (String c s) = true.
Proof. simpl. now rewrite Ascii.eqb_refl. Qed.

Lemma lstrip_drops (chars pre s : string) :
  (forall c, char_in c pre = true -> char_in c chars = true) ->
  lstrip chars (pre ++ s) = lstrip chars s.
Proof.
  induction pre as [| c pre IH]; intros H; trivial.
  simpl. rewrite (H c (char_in_head c pre)). apply IH.
  intros c' Hc'. apply H. simpl. rewrite Hc'. apply orb_true_r.
Qed.

Lemma lstrip_length (chars s : string) :
  (String.length (lstrip chars s) <= String.length s)%nat.
Proof.
  induction s as [| c s IH]; simpl; trivial.
  destruct (char_in c chars); simpl; lia.
Qed.

(** X17. In [build_orderbooks] the text handed to [int] for a member named
    [./<prefix>.<ts>] is [ts] stripped of its leading characters that occur
    in [./<prefix>.]: it is [ts] itself exactly when [ts] is empty or begins
    with a character that does not occur there. *)
Theorem timestamp_text_strips (snapshot_prefix ts : string) :
  let chars := full_prefix snapshot_prefix ++ "." in
  timestamp_text snapshot_prefix (chars ++ ts) = lstrip chars ts
  /\ (lstrip chars ts = ts <->
      match ts with
      | EmptyString => True
      | String c _ => char_in c chars = false
      end).
Proof.
  intros chars. split.
  - unfold timestamp_text. fold chars. now apply lstrip_drops.
  - clearbody chars. destruct ts as [| c ts]; simpl; [tauto |].
    destruct (char_in c chars) eqn:E; [| now split].
    split; [| discriminate].
    intros H. pose proof (lstrip_length chars ts) as Hlen.
    rewrite H in Hlen. simpl in Hlen. lia.
Qed.

(** With the prefix the program uses, a timestamp that begins with 1 comes
    through, one that begins with 5 or 0 loses those digits. *)
Example timestamp_text_samples :
  timestamp_text BTC_USDT_SNAPSHOT "./binance.BTCUSDT@orderbook5000.1700000000"
  = "1700000000"
  /\ timestamp_text BTC_USDT_SNAPSHOT "./binance.BTCUSDT@orderbook5000.500123" = "123".
Proof. split; reflexivity. Qed.

End TimestampText.

(** ** The library's binary search on a list in order *)

Section BinarySearch.

Variable V : Type.
Implicit Types (a d : SortedDict.t V) (x k key : float) (v : V).

Lemma mid_bounds (lo hi : nat) :
  (lo < hi)%nat -> (lo <= (lo + hi) / 2 < hi)%nat.
Proof.
  intros H. split.
  - apply Nat.div_le_lower_bound; lia.
  - apply Nat.Div0.div_lt_upper_bound. lia.
Qed.

(** The search ends at the boundary of any split of the list into the keys
    that send it right and the keys that send it left. *)
Lemma bisect_right_loop_split (l1 l2 : SortedDict.t V) x (steps lo hi : nat) :
  (forall e, In e l1 -> flt x (fst e) = false) ->
  (forall e, In e l2 -> flt x (fst e) = true) ->
  (lo <= List.length l1 <= hi)%nat ->
  (hi <= List.length (l1 ++ l2))%nat ->
  (hi - lo <= steps)%nat ->
  Exact.bisect_right_loop steps (l1 ++ l2) x lo hi = List.length l1.
Proof.
  intros H1 H2. revert lo hi.
  induction steps as [| steps IH]; intros lo hi Hlo Hhi Hsteps.
  - simpl. lia.
  - cbn [Exact.bisect_right_loop Exact.bisect_left_loop].
    destruct (Nat.ltb_spec lo hi) as [Hlt | Hge]; [| lia].
    pose proof (mid_bounds lo hi Hlt) as Hmid.
    destruct (nth_error (l1 ++ l2) ((lo + hi) / 2)) as [[k v] |] eqn:E.
    + destruct (Nat.lt_ge_cases ((lo + hi) / 2) (List.length l1)) as [Hin | Hout].
      * rewrite nth_error_app1 in E by trivial. apply nth_error_In in E.
        pose proof (H1 _ E) as Hk. simpl in Hk. rewrite Hk. apply IH; lia.
      * rewrite nth_error_app2 in E by trivial. apply nth_error_In in E.
        pose proof (H2 _ E) as Hk. simpl in Hk. rewrite Hk. apply IH; lia.
    + apply nth_error_None in E. lia.
Qed.

Lemma bisect_left_loop_split (l1 l2 : SortedDict.t V) x (steps lo hi : nat) :
  (forall e, In e l1 -> flt (fst e) x = true) ->
  (forall e, In e l2 -> flt (fst e) x = false) ->
  (lo <= List.length l1 <= hi)%nat ->
  (hi <= List.length (l1 ++ l2))%nat ->
  (hi - lo <= steps)%nat ->
  Exact.bisect_left_loop steps (l1 ++ l2) x lo hi = List.length l1.
Proof.
  intros H1 H2. revert lo hi.
  induction steps as [| steps IH]; intros lo hi Hlo Hhi Hsteps.
  - simpl. lia.
  - cbn [Exact.bisect_right_loop Exact.bisect_left_loop].
    destruct (Nat.ltb_spec lo hi) as [Hlt | Hge]; [| lia].
    pose proof (mid_bounds lo hi Hlt) as Hmid.
    destruct (nth_error (l1 ++ l2) ((lo + hi) / 2)) as [[k v] |] eqn:E.
    + destruct (Nat.lt_ge_cases ((lo + hi) / 2) (List.length l1)) as [Hin | Hout].
      * rewrite nth_error_app1 in E by trivial. apply nth_error_In in E.
        pose proof (H1 _ E) as Hk. simpl in Hk. rewrite Hk. apply IH; lia.
      * rewrite nth_error_app2 in E by trivial. apply nth_error_In in E.
        pose proof (H2 _ E) as Hk. simpl in Hk. rewrite Hk. apply IH; lia.
    + apply nth_error_None in E. lia.
Qed.

Lemma bisect_right_split (l1 l2 : SortedDict.t V) x :
  (forall e, In e l1 -> flt x (fst e) = false) ->
  (forall e, In e l2 -> flt x (fst e) = true) ->
  Exact.bisect_right (l1 ++ l2) x = List.length l1.
Proof.
  intros H1 H2. unfold Exact.bisect_right.
  apply bisect_right_loop_split; trivial; rewrite ?length_app; lia.
Qed.

Lemma bisect_left_split (l1 l2 : SortedDict.t V) x :
  (forall e, In e l1 -> flt (fst e) x = true) ->
  (forall e, In e l2 -> flt (fst e) x = false) ->
  Exact.bisect_left (l1 ++ l2) x = List.length l1.
Proof.
  intros H1 H2. unfold Exact.bisect_left.
  apply bisect_left_loop_split; trivial; rewrite ?length_app; lia.
Qed.

(** A list in order splits at every key. *)
Lemma split_above d x :
  ascending (SortedDict.keys d) = true ->
  exists l1 l2,
    d = l1 ++ l2
    /\ (forall e, In e l1 -> flt x (fst e) = false)
    /\ (forall e, In e l2 -> flt x (fst e) = true).
Proof.
  induction d as [| [k v] d IH]; intros Hasc.
  - exists [], []. repeat split; intros e [].
  - pose proof Hasc as Hasc'.
    apply ascending_keys_cons in Hasc. destruct Hasc as (Hk & Hall & Hasc).
    destruct (flt x k) eqn:E.
    + exists [], ((k, v) :: d). repeat split; [intros e [] |].
      intros e [<- | He]; trivial. simpl.
      rewrite Forall_forall in Hall.
      apply (flt_trans _ k); trivial. apply Hall. now apply in_map.
    + destruct (IH Hasc) as (l1 & l2 & -> & H1 & H2).
      exists ((k, v) :: l1), l2. repeat split; trivial.
      intros e [<- | He]; auto.
Qed.

Lemma split_below d x :
  ascending (SortedDict.keys d) = true ->
  exists l1 l2,
    d = l1 ++ l2
    /\ (forall e, In e l1 -> flt (fst e) x = true)
    /\ (forall e, In e l2 -> flt (fst e) x = false).
Proof.
  induction d as [| [k v] d IH]; intros Hasc.
  - exists [], []. repeat split; intros e [].
  - apply ascending_keys_cons in Hasc. destruct Hasc as (Hk & Hall & Hasc).
    destruct (flt k x) eqn:E.
    + destruct (IH Hasc) as (l1 & l2 & -> & H1 & H2).
      exists ((k, v) :: l1), l2. repeat split; trivial.
      intros e [<- | He]; auto.
    + exists [], ((k, v) :: d). repeat split; [intros e [] |].
      intros e [<- | He]; trivial. simpl.
      destruct (flt (fst e) x) eqn:E'; trivial.
      rewrite Forall_forall in Hall.
      assert (Hlt : flt k (fst e) = true) by (apply Hall; now apply in_map).
      rewrite (flt_trans _ _ _ Hlt E') in E. discriminate.
Qed.

Lemma last_key_app (l1 : SortedDict.t V) (e : float * V) (l2 : SortedDict.t V) :
  exists e', In e' (e :: l2) /\ Exact.last_key (l1 ++ e :: l2) = Some (fst e').
Proof.
  unfold Exact.last_key.
  destruct (exists_last (l := e :: l2)) as (l & e' & Hl); [discriminate |].
  exists e'. split.
  - rewrite Hl. apply in_or_app. simpl. auto.
  - rewrite Hl, app_assoc, rev_app_distr. simpl. now destruct e'.
Qed.

Lemma insort_split key v (l1 l2 : SortedDict.t V) :
  (forall e, In e l1 -> flt key (fst e) = false) ->
  (forall e, In e l2 -> flt key (fst e) = true) ->
  SortedDict.insort key v (l1 ++ l2) = l1 ++ (key, v) :: l2.
Proof.
  intros H1 H2. induction l1 as [| [k0 v0] l1 IH]; simpl.
  - destruct l2 as [| [k0 v0] l2]; trivial.
    pose proof (H2 (k0, v0) (or_introl eq_refl)) as Hk. simpl in Hk |- *.
    now rewrite Hk.
  - pose proof (H1 (k0, v0) (or_introl eq_refl)) as Hk. simpl in Hk.
    rewrite Hk. f_equal. apply IH. intros e He. apply H1. simpl. auto.
Qed.

Lemma firstn_length_app (A : Type) (l1 l2 : list A) :
  firstn (List.length l1) (l1 ++ l2) = l1.
Proof.
  rewrite firstn_app, Nat.sub_diag, firstn_all. simpl. apply app_nil_r.
Qed.

Lemma skipn_length_app (A : Type) (l1 l2 : list A) :
  skipn (List.length l1) (l1 ++ l2) = l2.
Proof.
  rewrite skipn_app, Nat.sub_diag, skipn_all. reflexivity.
Qed.

(** On a list in order [SortedList.add] puts the key before the first
    greater key. *)
Lemma add_insort key v d :
  ascending (SortedDict.keys d) = true ->
  Exact.add key v d = SortedDict.insort key v d.
Proof.
  intros Hasc. destruct (split_above d key Hasc) as (l1 & l2 & -> & H1 & H2).
  rewrite (insort_split key v l1 l2 H1 H2). unfold Exact.add.
  destruct l2 as [| e l2].
  - rewrite app_nil_r. destruct l1 as [| e l1 _] using rev_ind; trivial.
    unfold Exact.last_key. rewrite rev_app_distr. simpl. destruct e as [k0 v0].
    pose proof (H1 (k0, v0)) as Hk. simpl in Hk.
    now rewrite Hk by (apply in_or_app; simpl; auto).
  - destruct (last_key_app l1 e l2) as (e' & He' & ->).
    rewrite (H2 e' He'), (bisect_right_split l1 (e :: l2) key H1 H2).
    unfold Exact.insert_at. now rewrite firstn_length_app, skipn_length_app.
Qed.

Lemma remove_split_below key (l1 : SortedDict.t V) k v (l2 : SortedDict.t V) :
  (forall e, In e l1 -> flt (fst e) key = true) ->
  feq k key = true ->
  SortedDict.remove key (l1 ++ (k, v) :: l2) = l1 ++ l2.
Proof.
  intros H1 Hk. induction l1 as [| [k0 v0] l1 IH]; simpl.
  - now rewrite Hk.
  - pose proof (H1 (k0, v0) (or_introl eq_refl)) as Hlt. simpl in Hlt.
    rewrite (flt_not_feq _ _ Hlt).
    f_equal. apply IH. intros e He. apply H1. simpl. auto.
Qed.

(** On a list in order [SortedList.remove] of a key that the dict holds
    finds it and raises nothing. *)
Lemma remove_found key d k v :
  ascending (SortedDict.keys d) = true ->
  SortedDict.find_item key d = Some (k, v) ->
  Exact.remove key d = Return (SortedDict.remove key d).
Proof.
  intros Hasc Hfind. apply find_item_some in Hfind. destruct Hfind as (Hin & Hk).
  assert (Hnot : flt k key = false).
  { destruct (flt k key) eqn:E; trivial.
    apply flt_not_feq in E. congruence. }
  destruct (split_below d key Hasc) as (l1 & l2 & -> & H1 & H2).
  assert (Hin2 : In (k, v) l2).
  { apply in_app_or in Hin. destruct Hin as [Hin | Hin]; trivial.
    pose proof (H1 _ Hin) as Hlt. simpl in Hlt. congruence. }
  destruct l2 as [| [k0 v0] l2]; [easy |].
  assert (Hhead : feq k0 key = true).
  { destruct Hin2 as [[= -> ->] | Hin2]; trivial.
    unfold SortedDict.keys in Hasc. rewrite map_app in Hasc.
    apply ascending_app in Hasc. destruct Hasc as (_ & Hasc & _).
    simpl in Hasc. apply ascending_cons in Hasc. destruct Hasc as (_ & Hall & _).
    rewrite Forall_forall in Hall.
    assert (Hlt : flt k0 k = true) by (apply Hall; now apply (in_map fst) in Hin2).
    rewrite (feq_flt_r _ _ k0 Hk) in Hlt.
    pose proof (H2 (k0, v0) (or_introl eq_refl)) as Hge. simpl in Hge. congruence. }
  rewrite (remove_split_below key l1 k0 v0 l2 H1 Hhead).
  unfold Exact.remove.
  destruct (last_key_app l1 (k0, v0) l2) as (e' & He' & ->).
  rewrite (H2 e' He'), (bisect_left_split l1 ((k0, v0) :: l2) key H1 H2).
  rewrite nth_error_app2, Nat.sub_diag by lia. simpl. rewrite Hhead.
  unfold Exact.delete_at.
  rewrite firstn_length_app.
  change (S (List.length l1)) with (1 + List.length l1)%nat.
  rewrite <- skipn_skipn, skipn_length_app. reflexivity.
Qed.

End BinarySearch.

(** ** The library's container and the container in order *)

Section ExactContainer.

Variable V : Type.
Implicit Types (d : SortedDict.t V) (k key : float) (v : V).

Lemma exact_setitem key v d :
  ascending (SortedDict.keys d) = true ->
  Exact.setitem key v d = SortedDict.setitem key v d.
Proof.
  intros Hasc. unfold Exact.setitem, SortedDict.setitem.
  destruct (SortedDict.contains key d); trivial. now apply add_insort.
Qed.

Lemma exact_pop key d :
  ascending (SortedDict.keys d) = true ->
  Exact.pop key d = Return (SortedDict.pop key d).
Proof.
  intros Hasc. unfold Exact.pop, SortedDict.pop.
  destruct (SortedDict.find_item key d) as [[k v] |] eqn:E; trivial.
  now rewrite (remove_found _ key d k v Hasc E).
Qed.

Lemma last_key_nth d max :
  Exact.last_key d = Some max ->
  exists v, nth_error d (List.length d - 1) = Some (max, v).
Proof.
  unfold Exact.last_key. destruct d as [| e d _] using rev_ind; [discriminate |].
  rewrite rev_app_distr. simpl. destruct e as [k v]. intros [= ->].
  exists v. rewrite length_app. simpl.
  rewrite nth_error_app2 by lia.
  replace (List.length d + 1 - 1 - List.length d)%nat with 0%nat by lia.
  reflexivity.
Qed.

(** Past the check against the last key the search stays inside the list. *)
Lemma bisect_left_loop_inside d key max v (steps lo hi : nat) :
  nth_error d (List.length d - 1) = Some (max, v) ->
  flt max key = false ->
  (lo <= hi <= List.length d)%nat ->
  (lo < List.length d)%nat ->
  (Exact.bisect_left_loop steps d key lo hi < List.length d)%nat.
Proof.
  intros Hlast Hmax. revert lo hi.
  induction steps as [| steps IH]; intros lo hi Hlo Hlt.
  - simpl. lia.
  - cbn [Exact.bisect_left_loop].
    destruct (Nat.ltb_spec lo hi) as [Hlh | Hge]; [| lia].
    pose proof (mid_bounds lo hi Hlh) as Hmid.
    destruct (nth_error d ((lo + hi) / 2)) as [[k0 v0] |] eqn:E; [| lia].
    destruct (flt k0 key) eqn:Ek.
    + apply IH; [lia |].
      destruct (Nat.eq_dec ((lo + hi) / 2) (List.length d - 1)) as [Heq | Hne]; [| lia].
      rewrite Heq, Hlast in E. injection E as <- <-. congruence.
    + apply IH; lia.
Qed.

(** [SortedList.remove] raises nothing but [ValueError]. *)
Lemma remove_raises key d (e : exn) :
  Exact.remove key d = Raise e -> e = ValueError.
Proof.
  unfold Exact.remove.
  destruct (Exact.last_key d) as [max |] eqn:El; [| now intros [= <-]].
  destruct (flt max key) eqn:Em; [now intros [= <-] |].
  destruct (last_key_nth d max El) as (v & Hlast).
  assert (Hpos : (0 < List.length d)%nat).
  { destruct d; [discriminate | simpl; lia]. }
  pose proof (bisect_left_loop_inside d key max v (List.length d) 0 (List.length d)
                Hlast Em ltac:(lia) Hpos) as Hin.
  fold (Exact.bisect_left d key) in Hin.
  destruct (nth_error d (Exact.bisect_left d key)) as [[k0 v0] |] eqn:E.
  - destruct (feq k0 key); [discriminate | now intros [= <-]].
  - apply nth_error_None in E. lia.
Qed.

End ExactContainer.

Section ExactBook.

Import LevelsInv.

Lemma exact_merge_level (self : Levels.t) (level : PriceLevel.t) :
  sorted self = true ->
  Exact.merge_level self level = Return (Levels.merge_level self level).
Proof.
  intros Hs. unfold Exact.merge_level, Levels.merge_level.
  destruct (feq (PriceLevel.quantity level) zero).
  - now rewrite exact_pop.
  - now rewrite exact_setitem.
Qed.

Lemma exact_merge (lvls : list PriceLevel.t) (self : Levels.t) :
  sorted self = true ->
  ordered_prices lvls = true ->
  Exact.merge lvls self = (Return tt, Levels.merge lvls self).
Proof.
  revert self. induction lvls as [| level lvls IH]; intros self Hs; trivial.
  unfold ordered_prices. simpl forallb.
  rewrite andb_true_iff, negb_true_iff. intros (Hnan & Hord).
  simpl Exact.merge. rewrite (exact_merge_level self level Hs), merge_cons.
  apply IH; trivial. now apply sorted_merge_level.
Qed.

Lemma exact_merge_level_raises (self : Levels.t) (level : PriceLevel.t) (e : exn) :
  Exact.merge_level self level = Raise e -> e = ValueError.
Proof.
  unfold Exact.merge_level, Exact.pop.
  destruct (feq (PriceLevel.quantity level) zero); [| discriminate].
  destruct (SortedDict.find_item (PriceLevel.price level) (Levels.levels self))
    as [[k v] |]; [| discriminate].
  destruct (Exact.remove (PriceLevel.price level) (Levels.levels self)) as [d' | e']
    eqn:E; [discriminate |].
  simpl. intros [= <-]. now apply remove_raises in E.
Qed.

Lemma exact_merge_raises (lvls : list PriceLevel.t) (self : Levels.t) (e : exn) :
  fst (Exact.merge lvls self) = Raise e -> e = ValueError.
Proof.
  revert self. induction lvls as [| level lvls IH]; intros self; [discriminate |].
  simpl. destruct (Exact.merge_level self level) as [self' | e'] eqn:E.
  - apply IH.
  - simpl. intros [= <-]. now apply exact_merge_level_raises in E.
Qed.

Lemma exact_update (u : PartialUpdate.t) (book : BinanceOrderBook.t) :
  BookInv.sorted book = true ->
  BookInv.ordered_update u = true ->
  Exact.update u book = BinanceOrderBook.update u book.
Proof.
  unfold BookInv.sorted, BookInv.ordered_update. rewrite !andb_true_iff.
  intros (Hsb & Hsa) (Hob & Hoa).
  unfold Exact.update, BinanceOrderBook.update.
  now rewrite (exact_merge _ _ Hsb Hob), (exact_merge _ _ Hsa Hoa).
Qed.

Lemma exact_init (s : Snapshot.t) :
  BookInv.ordered_snapshot s = true ->
  Exact.init s = Return (BinanceOrderBook.init s).
Proof.
  unfold BookInv.ordered_snapshot. rewrite andb_true_iff. intros (Hob & Hoa).
  unfold Exact.init, BinanceOrderBook.init.
  now rewrite (exact_merge _ Levels.init eq_refl Hob),
    (exact_merge _ Levels.init eq_refl Hoa).
Qed.

Lemma exact_feed (us : list PartialUpdate.t) (book : BinanceOrderBook.t) :
  BookInv.sorted book = true ->
  forallb BookInv.ordered_update us = true ->
  Exact.feed us book = BinanceOrderBook.feed us book.
Proof.
  revert book. induction us as [| u us IH]; intros book Hs; trivial.
  simpl forallb. rewrite andb_true_iff. intros (Hu & Hus).
  change (Exact.feed (u :: us) book) with (Exact.feed us (snd (Exact.update u book))).
  change (BinanceOrderBook.feed (u :: us) book)
    with (BinanceOrderBook.feed us (snd (BinanceOrderBook.update u book))).
  rewrite (exact_update u book Hs Hu). apply IH; trivial.
  now apply book_update_sorted.
Qed.

Lemma getitem_stored_sorted (d : SortedDict.t PriceLevel.t) (e : float * PriceLevel.t) :
  ascending (SortedDict.keys d) = true ->
  In e d -> Exact.getitem_stored d e = snd e.
Proof.
  intros Hasc Hin. destruct e as [k v]. unfold Exact.getitem_stored. simpl.
  rewrite (find_item_sorted _ d k v k Hasc Hin); trivial.
  apply feq_refl. apply (ascending_nonnan _ _ Hasc).
  now apply (in_map fst) in Hin.
Qed.

Lemma exact_slice_values (self : Levels.t) (start stop : option Z) (reverse : bool) :
  sorted self = true ->
  map (Exact.getitem_stored (Levels.levels self))
      (slice_items start stop reverse (Levels.levels self))
  = map snd (slice_items start stop reverse (Levels.levels self)).
Proof.
  intros Hs. apply map_ext_in. intros e He.
  apply getitem_stored_sorted; trivial. now apply slice_items_In in He.
Qed.

(** On a book in order the slices are the ones of the container in order. *)
Lemma exact_best (book : BinanceOrderBook.t) (n : Z) :
  BookInv.sorted book = true ->
  BinanceOrderBook.best_bids n book = Return (Exact.best_bids n book)
  /\ BinanceOrderBook.best_asks n book = Return (Exact.best_asks n book).
Proof.
  unfold BookInv.sorted. rewrite andb_true_iff. intros (Hsb & Hsa).
  unfold BinanceOrderBook.best_bids, BinanceOrderBook.best_asks,
    Exact.best_bids, Exact.best_asks, Exact.max_slice, Exact.min_slice.
  rewrite !exact_slice_values by trivial.
  split; [now apply max_slice_items | now apply min_slice_items].
Qed.

End ExactBook.

(** ** The claims that depend on the prices being ordered *)

Section ExactClaims.

Import BinanceOrderBook.

(** C1, as the code has it.  With [U] the book's [last_update_id], [update]
    returns [False] (skipped) exactly when the update's [last_update_id] is
    below [U], and raises the gap warning, carrying the received and the
    expected id, exactly when the update's [last_update_id] is at least [U]
    and its [first_update_id] exceeds [U + 1].  It returns [True] (applied)
    only in the remaining case, [first_update_id <= U + 1 <=
    last_update_id + 1]; in that case the only other outcome is a
    [ValueError] raised by the container during the merge, and there is none
    when the book's keys are in order and no price of the update is NaN:
    then the update is applied. *)
Theorem exact_update_outcome (self : t) (u : PartialUpdate.t) :
  let U := last_update_id self in
  let first := PartialUpdate.first_update_id u in
  let last := PartialUpdate.last_update_id u in
  let result := fst (Exact.update u self) in
  (result = Return false <-> last < U)
  /\ (result = Raise (RuntimeWarning first (U + 1)) <-> U <= last /\ first > U + 1)
  /\ (result = Return true -> first <= U + 1 <= last + 1)
  /\ (first <= U + 1 <= last + 1 -> result = Return true \/ result = Raise ValueError)
  /\ (BookInv.sorted self = true -> BookInv.ordered_update u = true ->
      first <= U + 1 <= last + 1 -> result = Return true).
Proof.
  cbv zeta.
  assert (Hmerge : PartialUpdate.first_update_id u <= last_update_id self + 1
                   <= PartialUpdate.last_update_id u + 1 ->
                   fst (Exact.update u self) = Return true
                   \/ fst (Exact.update u self) = Raise ValueError).
  { intros H. unfold Exact.update.
    destruct (Z.ltb_spec (PartialUpdate.last_update_id u) (last_update_id self)); [lia |].
    destruct (Z.gtb_spec (PartialUpdate.first_update_id u) (last_update_id self + 1));
      [lia |].
    destruct (Exact.merge (PartialUpdate.bids u) (bids self)) as [[[] | e1] bids'] eqn:E1.
    - destruct (Exact.merge (PartialUpdate.asks u) (asks self)) as [[[] | e2] asks'] eqn:E2.
      + left. reflexivity.
      + right. simpl. f_equal.
        apply (exact_merge_raises (PartialUpdate.asks u) (asks self)). now rewrite E2.
    - right. simpl. f_equal.
      apply (exact_merge_raises (PartialUpdate.bids u) (bids self)). now rewrite E1. }
  assert (Hskip : PartialUpdate.last_update_id u < last_update_id self ->
                  fst (Exact.update u self) = Return false).
  { intros H. unfold Exact.update.
    destruct (Z.ltb_spec (PartialUpdate.last_update_id u) (last_update_id self));
      [reflexivity | lia]. }
  assert (Hgap : last_update_id self <= PartialUpdate.last_update_id u ->
                 PartialUpdate.first_update_id u > last_update_id self + 1 ->
                 fst (Exact.update u self)
                 = Raise (RuntimeWarning (PartialUpdate.first_update_id u)
                                         (last_update_id self + 1))).
  { intros H1 H2. unfold Exact.update.
    destruct (Z.ltb_spec (PartialUpdate.last_update_id u) (last_update_id self)); [lia |].
    destruct (Z.gtb_spec (PartialUpdate.first_update_id u) (last_update_id self + 1));
      [reflexivity | lia]. }
  assert (Hcases :
            PartialUpdate.last_update_id u < last_update_id self
            \/ (last_update_id self <= PartialUpdate.last_update_id u
                /\ PartialUpdate.first_update_id u > last_update_id self + 1)
            \/ PartialUpdate.first_update_id u <= last_update_id self + 1
               <= PartialUpdate.last_update_id u + 1) by lia.
  split; [| split; [| split; [| split]]].
  - split; [| exact Hskip]. intros Hr.
    destruct Hcases as [H | [(H1 & H2) | H]]; trivial.
    + rewrite (Hgap H1 H2) in Hr. discriminate.
    + destruct (Hmerge H) as [Hm | Hm]; rewrite Hm in Hr; discriminate.
  - split; [| intros (H1 & H2); now apply Hgap]. intros Hr.
    destruct Hcases as [H | [H | H]]; trivial.
    + rewrite (Hskip H) in Hr. discriminate.
    + destruct (Hmerge H) as [Hm | Hm]; rewrite Hm in Hr; discriminate.
  - intros Hr. destruct Hcases as [H | [(H1 & H2) | H]]; trivial.
    + rewrite (Hskip H) in Hr. discriminate.
    + rewrite (Hgap H1 H2) in Hr. discriminate.
  - exact Hmerge.
  - intros Hs Ho H. rewrite (exact_update u self Hs Ho).
    destruct (update_cases u self) as [(H1 & _) | [(_ & H2 & _) | (_ & _ & ->)]];
      [lia | lia | reflexivity].
Qed.

Lemma exact_update_outcome_witness :
  fst (Exact.update Sample.stale Sample.book) = Return false
  /\ fst (Exact.update Sample.gapped Sample.book) = Raise (RuntimeWarning 107 (100 + 1))
  /\ fst (Exact.update Sample.contiguous Sample.book) = Return true.
Proof.
  split; [| split].
  - destruct (exact_update_outcome Sample.book Sample.stale) as ((_ & H) & _).
    apply H. reflexivity.
  - destruct (exact_update_outcome Sample.book Sample.gapped) as (_ & (_ & H) & _).
    apply H. split; [discriminate | reflexivity].
  - destruct (exact_update_outcome Sample.book Sample.contiguous) as (_ & _ & _ & _ & H).
    apply H; try reflexivity. split; discriminate.
Defined.

(** A book in order at position 100, with bids at 1.0 and 5.0, and the
    update [101..101] with bids [nan/1, 0.5/2, 0.5/0]: its ids ask for it to
    be applied, yet the call raises [ValueError] - the NaN key and then 0.5
    go to the end of the key list, and the removal of 0.5 searches for it at
    the front - and is neither skipped, nor a gap, nor applied. *)
Lemma update_nan_price_raises :
  (BookInv.sorted NaNSample.book = true
   /\ last_update_id NaNSample.book = 100
   /\ PartialUpdate.first_update_id NaNSample.update = 100 + 1
   /\ PartialUpdate.last_update_id NaNSample.update = 101
   /\ fst (Exact.update NaNSample.update NaNSample.book) = Raise ValueError
   /\ SortedDict.keys (Levels.levels (bids (snd (Exact.update NaNSample.update
                                                               NaNSample.book))))
      = [Sample.fl 1; Sample.fl 5; S754_nan; NaNSample.half])
  /\ ~ (forall self u,
          PartialUpdate.first_update_id u <= last_update_id self + 1
          <= PartialUpdate.last_update_id u + 1 ->
          fst (Exact.update u self) = Return true).
Proof.
  split; [repeat split |].
  intros H. specialize (H NaNSample.book NaNSample.update).
  assert (Hraise : fst (Exact.update NaNSample.update NaNSample.book) = Raise ValueError)
    by reflexivity.
  rewrite H in Hraise; [discriminate | split; discriminate].
Qed.

(** C5, as the code has it.  For the book built from a snapshot and fed any
    sequence of updates, no price among them NaN, the construction raises
    nothing and, for every [n], [best_bids(n)] yields levels whose prices
    are strictly descending and [best_asks(n)] levels whose prices are
    strictly ascending; for [n] between 1 and the resident count of the side
    exactly [n] levels are yielded. *)
Theorem exact_best_prices_ordered (s : Snapshot.t) (us : list PartialUpdate.t) (n : Z) :
  BookInv.ordered_snapshot s = true ->
  forallb BookInv.ordered_update us = true ->
  exists book0,
    Exact.init s = Return book0
    /\ let book := Exact.feed us book0 in
       descending (map PriceLevel.price (Exact.best_bids n book)) = true
       /\ (1 <= n <= Levels.len (bids book) ->
           Z.of_nat (List.length (Exact.best_bids n book)) = n)
       /\ ascending (map PriceLevel.price (Exact.best_asks n book)) = true
       /\ (1 <= n <= Levels.len (asks book) ->
           Z.of_nat (List.length (Exact.best_asks n book)) = n).
Proof.
  intros Hs Hus. exists (init s). split; [now apply exact_init |].
  destruct (book_init_inv s Hs) as (Hs0 & _).
  rewrite (exact_feed us (init s) Hs0 Hus).
  destruct (book_reachable_inv s us Hs Hus) as (Hsorted & _).
  destruct (exact_best (feed us (init s)) n Hsorted) as (Hb & Ha).
  destruct (ordered_best_prices s us n Hs Hus)
    as (lb & la & Hlb & Hdesc & Hnb & Hla & Hasc & Hna).
  cbv zeta in Hlb, Hla, Hnb, Hna |- *.
  rewrite Hb in Hlb. rewrite Ha in Hla.
  injection Hlb as <-. injection Hla as <-.
  repeat split; trivial.
Qed.

Lemma exact_best_prices_ordered_witness :
  exists book0,
    Exact.init Sample.snapshot = Return book0
    /\ let book := Exact.feed [Sample.stale; Sample.contiguous] book0 in
       descending (map PriceLevel.price (Exact.best_bids 3 book)) = true
       /\ (1 <= 3 <= Levels.len (bids book) ->
           Z.of_nat (List.length (Exact.best_bids 3 book)) = 3)
       /\ ascending (map PriceLevel.price (Exact.best_asks 3 book)) = true
       /\ (1 <= 3 <= Levels.len (asks book) ->
           Z.of_nat (List.length (Exact.best_asks 3 book)) = 3).
Proof.
  apply (exact_best_prices_ordered Sample.snapshot [Sample.stale; Sample.contiguous] 3);
    reflexivity.
Defined.

(** A snapshot with bids [5/1, nan/2, 1/3]: the NaN key and then 1.0 go to
    the end of the key list, which becomes [5.0, nan, 1.0]; with three
    resident bids [best_bids(3)] yields the prices [1.0, nan, 5.0], which are
    not in descending order. *)
Lemma best_bids_nan_price_unordered :
  match Exact.init NaNSample.snapshot with
  | Return book =>
      SortedDict.keys (Levels.levels (bids book)) = [Sample.fl 5; S754_nan; Sample.fl 1]
      /\ Levels.len (bids book) = 3
      /\ map PriceLevel.price (Exact.best_bids 3 book)
         = [Sample.fl 1; S754_nan; Sample.fl 5]
      /\ descending (map PriceLevel.price (Exact.best_bids 3 book)) = false
  | Raise _ => False
  end.
Proof. repeat split. Qed.

(** X12. A stream in which every update starts right after the previous one
    ends (the first right after the book's position) and has
    [first_update_id <= last_update_id], fed to a book whose keys are in
    order and with no NaN price in it, is applied in full: the book ends at
    the [last_update_id] of the last update, and each side is the result of
    merging the updates' levels for that side one batch after the other. *)
Theorem contiguous_stream_applies (upds : list PartialUpdate.t) (book : t) :
  BookInv.sorted book = true ->
  forallb BookInv.ordered_update upds = true ->
  contiguous_from (last_update_id book) upds = true ->
  Exact.feed upds book =
  Make (LevelsInv.merges (map PartialUpdate.bids upds) (bids book))
       (LevelsInv.merges (map PartialUpdate.asks upds) (asks book))
       (last (map PartialUpdate.last_update_id upds) (last_update_id book)).
Proof.
  intros Hs Ho Hc. rewrite (exact_feed upds book Hs Ho).
  now apply feed_contiguous.
Qed.

Lemma contiguous_stream_applies_witness :
  Exact.feed [Sample.contiguous;
              PartialUpdate.Make [Sample.level 8 0] [] 106 106] Sample.book
  = Make (LevelsInv.merges [[Sample.level 10 0; Sample.level 9 4]; [Sample.level 8 0]]
                            (bids Sample.book))
         (LevelsInv.merges [[Sample.level 11 0; Sample.level 13 1]; []]
                            (asks Sample.book))
         106.
Proof.
  apply (contiguous_stream_applies
           [Sample.contiguous; PartialUpdate.Make [Sample.level 8 0] [] 106 106]
           Sample.book); reflexivity.
Defined.

(** Where C9 fails as worded.  First: a book applies the update [101..105]
    with bid [9/4], then the update [105..105] with bid [9/7]; the first
    update's [last_update_id] is still the book's, and applied again it
    returns [True] and changes the book (the bid at 9 goes back to 4).
    Second: merging [1/0, 5/1, nan/2, 1/3] into an empty container leaves
    the keys [5.0, nan, 1.0], and merging the same list again raises
    [ValueError] at the removal of 1.0. *)
Lemma reapplication_changes_book :
  (let book1 := snd (update NaNSample.first_105 Sample.book) in
   let book2 := snd (update NaNSample.second_105 book1) in
   fst (update NaNSample.first_105 Sample.book) = Return true
   /\ fst (update NaNSample.second_105 book1) = Return true
   /\ PartialUpdate.last_update_id NaNSample.first_105 = last_update_id book2
   /\ fst (update NaNSample.first_105 book2) = Return true
   /\ SortedDict.getitem (Levels.levels (bids book2)) (Sample.fl 9)
      = Return (Sample.level 9 7)
   /\ SortedDict.getitem (Levels.levels (bids (snd (update NaNSample.first_105 book2))))
                         (Sample.fl 9)
      = Return (Sample.level 9 4)
   /\ snd (update NaNSample.first_105 book2) <> book2)
  /\ (let lvls := [Sample.level 1 0; Sample.level 5 1; NaNSample.nan_level 2;
                   Sample.level 1 3] in
      fst (Exact.merge lvls Levels.init) = Return tt
      /\ SortedDict.keys (Levels.levels (snd (Exact.merge lvls Levels.init)))
         = [Sample.fl 5; S754_nan; Sample.fl 1]
      /\ fst (Exact.merge lvls (snd (Exact.merge lvls Levels.init))) = Raise ValueError).
Proof.
  split; [| repeat split].
  cbv zeta. repeat split.
  intros H.
  apply (f_equal (fun b => SortedDict.getitem (Levels.levels (bids b)) (Sample.fl 9))) in H.
  vm_compute in H. discriminate.
Qed.

(** Where C10 fails as worded: after the merge of one level priced NaN the
    container holds it under a NaN key, and key and price are not equal. *)
Lemma nan_key_not_equal_to_price :
  Levels.levels (LevelsInv.merges [[NaNSample.nan_level 1]] Levels.init)
  = [(S754_nan, NaNSample.nan_level 1)]
  /\ snd (Exact.merge [NaNSample.nan_level 1] Levels.init)
     = LevelsInv.merges [[NaNSample.nan_level 1]] Levels.init
  /\ feq (PriceLevel.price (NaNSample.nan_level 1)) S754_nan = false
  /\ ~ (forall batches k v,
          In (k, v) (Levels.levels (LevelsInv.merges batches Levels.init)) ->
          feq (PriceLevel.price v) k = true).
Proof.
  repeat split.
  intros H.
  specialize (H [[NaNSample.nan_level 1]] S754_nan (NaNSample.nan_level 1)
                (or_introl eq_refl)).
  discriminate.
Qed.

End ExactClaims.
